(** * chacher: a disk-backed memoization cache (src/cacher.py)

    A shallow embedding of [cache_this], [check] and [store] together with
    the library behaviour they rely on (str methods, [re.search],
    [datetime.strptime]/[strftime], [os.listdir]/[os.remove], [open]).

    Conventions of the model
    - File names are [string]s over 8-bit code points; in that range the
      only characters matched by the regex class [\d] are "0".."9".
    - The cache directory is an association list from file names to file
      contents; [os.listdir] returns the names in list order, which is
      arbitrary. A newly created file is put last; the theorems about a
      lookup after a [store] are stated for every directory with the same
      files ([same_files]), so for every listing order.
    - [pickle.dumps], [pickle.load] and [hashlib.sha256(..).hexdigest()] are
      the three operations of a [Runtime]; every theorem holds for every
      runtime, closed examples use the small [sample_runtime].
    - [datetime.now()] is an explicit argument of every operation.
    - [print] is not modelled. *)

From Stdlib Require Import ZArith List String Ascii Bool Lia.
From Stdlib Require Import Strings.Byte.
Import ListNotations.

Set Warnings "-register-all".

Local Open Scope Z_scope.
Local Open Scope list_scope.

(* ================================================================== *)
(** ** Python values and outcomes *)

Inductive pyval : Type :=
| PNone
| PBool (b : bool)
| PInt (z : Z)
| PStr (s : string)
| PTuple (items : list pyval)
| PList (items : list pyval)
| PDict (items : list (pyval * pyval))
| PObject (id : nat).   (* any other object: a lambda, an open handle, ... *)

(** [isinstance(x, tuple)] *)
Definition isinstance_tuple (x : pyval) : bool :=
  match x with PTuple _ => true | _ => false end.

Inductive exn : Type :=
| AttributeError
| ValueError
| TypeError
| PicklingError
| UnpicklingError
| FileNotFoundError
| UserError (code : Z).   (* whatever the wrapped function raises *)

Inductive outcome (A : Type) : Type :=
| Return (a : A)
| Raise (e : exn).
Arguments Return {A} a.
Arguments Raise {A} e.

(** The serializer and the hash are collaborators of the cache. A result of
    [None] stands for the call raising an exception. *)
Class Runtime : Type := {
  pickle_dumps : pyval -> option (list byte);
  pickle_loads : list byte -> option pyval;
  sha256_hexdigest : list byte -> string
}.

(* ================================================================== *)
(** ** Strings *)

Definition chars (s : string) : list ascii := list_ascii_of_string s.

Fixpoint list_startswith (p s : list ascii) : bool :=
  match p, s with
  | [], _ => true
  | a :: p', b :: s' => Ascii.eqb a b && list_startswith p' s'
  | _ :: _, [] => false
  end.

(** [s.startswith(p)] *)
Definition startswith (s p : string) : bool :=
  list_startswith (chars p) (chars s).

(** [s.split('_', 1)] unpacked into two names: [None] when [s] holds no
    underscore (the unpacking raises ValueError). *)
Fixpoint split_underscore (s : list ascii) : option (list ascii * list ascii) :=
  match s with
  | [] => None
  | c :: s' =>
      if Ascii.eqb c "_" then Some ([], s')
      else match split_underscore s' with
           | Some (a, b) => Some (c :: a, b)
           | None => None
           end
  end.

(* ================================================================== *)
(** ** A regular-expression matcher for the patterns in use

    Every pattern the program hands to [re] (directly, or through
    [strptime]) is a sequence of groups, each group an ordered choice
    between fixed sequences of character classes. [match_regex] returns the
    first match in backtracking order, as [re.match] does. *)

Inductive cclass : Type :=
| Digit                       (* \d *)
| Range (lo hi : ascii)       (* [lo-hi] *)
| Lit (c : ascii)             (* a literal character *)
| LitCI (lower upper : ascii) (* a literal letter under re.IGNORECASE *).

Definition code (c : ascii) : Z := Z.of_N (N_of_ascii c).

Definition in_range (lo hi c : ascii) : bool :=
  (code lo <=? code c) && (code c <=? code hi).

Definition accepts (k : cclass) (c : ascii) : bool :=
  match k with
  | Digit => in_range "0" "9" c
  | Range lo hi => in_range lo hi c
  | Lit x => Ascii.eqb x c
  | LitCI l u => Ascii.eqb l c || Ascii.eqb u c
  end.

Fixpoint match_seq (ks : list cclass) (s : list ascii)
  : option (list ascii * list ascii) :=
  match ks with
  | [] => Some ([], s)
  | k :: ks' =>
      match s with
      | c :: s' =>
          if accepts k c then
            match match_seq ks' s' with
            | Some (m, r) => Some (c :: m, r)
            | None => None
            end
          else None
      | [] => None
      end
  end.

Definition regex : Type := list (list (list cclass)).

(** One group: the alternatives are tried in order, and an alternative is
    kept only if the rest of the pattern, [k], matches after it. *)
Fixpoint try_alts (k : list ascii -> option (list (list ascii) * list ascii))
    (alts : list (list cclass)) (s : list ascii)
  : option (list (list ascii) * list ascii) :=
  match alts with
  | [] => None
  | a :: alts' =>
      match match_seq a s with
      | Some (m, r) =>
          match k r with
          | Some (gs, r') => Some (m :: gs, r')
          | None => try_alts k alts' s
          end
      | None => try_alts k alts' s
      end
  end.

(** The text matched by each group, and what is left of the input. *)
Fixpoint match_regex (re : regex) (s : list ascii)
  : option (list (list ascii) * list ascii) :=
  match re with
  | [] => Some ([], s)
  | alts :: re' => try_alts (match_regex re') alts s
  end.

(** [$] without re.MULTILINE: at the end, or before a final newline. *)
Definition at_dollar (rest : list ascii) : bool :=
  match rest with
  | [] => true
  | [c] => Ascii.eqb c "010"
  | _ => false
  end.

(** [re.search(r"(\d{14})\.pkl$", s)]: the leftmost start at which the
    pattern matches; the result is [group(1)]. [None] is Python's [None]. *)
Definition stamp_pattern : regex :=
  [ [ repeat Digit 14 ]; [ [Lit "."; Lit "p"; Lit "k"; Lit "l"] ] ].

Fixpoint re_search_stamp (s : list ascii) : option (list ascii) :=
  let here :=
    match match_regex stamp_pattern s with
    | Some (g :: _, r) => if at_dollar r then Some g else None
    | _ => None
    end in
  match here with
  | Some g => Some g
  | None => match s with
            | [] => None
            | _ :: s' => re_search_stamp s'
            end
  end.

(* ================================================================== *)
(** ** datetime *)

Record datetime : Type := mkdatetime {
  year : Z; month : Z; day : Z;
  hour : Z; minute : Z; second : Z; microsecond : Z
}.

(** A [timedelta], counted in microseconds. *)
Definition timedelta : Type := Z.

Definition timedelta_of (days seconds microseconds : Z) : timedelta :=
  (days * 86400 + seconds) * 1000000 + microseconds.

Definition is_leap (y : Z) : bool :=
  (y mod 4 =? 0) && (negb (y mod 100 =? 0) || (y mod 400 =? 0)).

Definition days_in_month (y m : Z) : Z :=
  if m =? 2 then (if is_leap y then 29 else 28)
  else if (m =? 4) || (m =? 6) || (m =? 9) || (m =? 11) then 30
  else 31.

Definition days_before_year (y : Z) : Z :=
  let y' := y - 1 in y' * 365 + y' / 4 - y' / 100 + y' / 400.

Definition days_before_month (y m : Z) : Z :=
  nth (Z.to_nat m) [-1; 0; 31; 59; 90; 120; 151; 181; 212; 243; 273; 304; 334] 0
  + (if (2 <? m) && is_leap y then 1 else 0).

Definition toordinal (t : datetime) : Z :=
  days_before_year (year t) + days_before_month (year t) (month t) + day t.

(** The checks of the [datetime] constructor. *)
Definition valid_datetime (t : datetime) : bool :=
  (1 <=? year t) && (year t <=? 9999) &&
  (1 <=? month t) && (month t <=? 12) &&
  (1 <=? day t) && (day t <=? days_in_month (year t) (month t)) &&
  (0 <=? hour t) && (hour t <=? 23) &&
  (0 <=? minute t) && (minute t <=? 59) &&
  (0 <=? second t) && (second t <=? 59) &&
  (0 <=? microsecond t) && (microsecond t <=? 999999).

(** [a - b] on naive datetimes. *)
Definition datetime_sub (a b : datetime) : timedelta :=
  timedelta_of (toordinal a - toordinal b)
    ((second a + minute a * 60 + hour a * 3600)
     - (second b + minute b * 60 + hour b * 3600))
    (microsecond a - microsecond b).

Definition digit_char (n : Z) : ascii :=
  match n with
  | 0 => "0" | 1 => "1" | 2 => "2" | 3 => "3" | 4 => "4"
  | 5 => "5" | 6 => "6" | 7 => "7" | 8 => "8" | _ => "9"
  end%char.

(** [n] as [w] decimal digits, zero padded. *)
Fixpoint zero_pad (w : nat) (n : Z) : list ascii :=
  match w with
  | O => []
  | S w' => zero_pad w' (n / 10) ++ [digit_char (n mod 10)]
  end.

(** [t.strftime("%Y%m%d%H%M%S")], for years of four digits: the C library
    may write a smaller year with fewer digits, so every statement that
    relies on the stamp assumes [1000 <= year t] (see [clock_ok]). *)
Definition strftime_YmdHMS (t : datetime) : string :=
  string_of_list_ascii
    (zero_pad 4 (year t) ++ zero_pad 2 (month t) ++ zero_pad 2 (day t) ++
     zero_pad 2 (hour t) ++ zero_pad 2 (minute t) ++ zero_pad 2 (second t)).

(** The groups [_strptime.TimeRE] substitutes for the directives. *)
Definition re_Y : list (list cclass) := [ [Digit; Digit; Digit; Digit] ].
Definition re_m : list (list cclass) :=
  [ [Lit "1"; Range "0" "2"]; [Lit "0"; Range "1" "9"]; [Range "1" "9"] ].
Definition re_d : list (list cclass) :=
  [ [Lit "3"; Range "0" "1"]; [Range "1" "2"; Digit]; [Lit "0"; Range "1" "9"];
    [Range "1" "9"]; [Lit " "; Range "1" "9"] ].
Definition re_H : list (list cclass) :=
  [ [Lit "2"; Range "0" "3"]; [Range "0" "1"; Digit]; [Digit] ].
Definition re_M : list (list cclass) := [ [Range "0" "5"; Digit]; [Digit] ].
Definition re_S : list (list cclass) :=
  [ [Lit "6"; Range "0" "1"]; [Range "0" "5"; Digit]; [Digit] ].
Definition re_dot_pkl : list (list cclass) :=
  [ [Lit "."; LitCI "p" "P"; LitCI "k" "K"; LitCI "l" "L"] ].

Definition digit_value (c : ascii) : Z := code c - 48.

(** [int(text)] for a text of digits, a leading blank ignored. *)
Definition py_int (text : list ascii) : Z :=
  fold_left (fun acc c => if Ascii.eqb c " " then acc else acc * 10 + digit_value c)
            text 0.

(** [datetime.strptime(s, fmt)] for a format whose regex is
    [re_Y; re_m; re_d; re_H; re_M; re_S] followed by [literal]: the regex
    must match at the start and leave nothing unconverted, and the fields
    must pass the constructors' checks. [None] is ValueError. *)
Definition strptime_with (literal : regex) (s : list ascii) : option datetime :=
  match match_regex ([re_Y; re_m; re_d; re_H; re_M; re_S] ++ literal) s with
  | Some (gY :: gm :: gd :: gH :: gM :: gS :: _, []) =>
      let t := mkdatetime (py_int gY) (py_int gm) (py_int gd)
                          (py_int gH) (py_int gM) (py_int gS) 0 in
      if valid_datetime t then Some t else None
  | _ => None
  end.

(** [datetime.strptime(s, "%Y%m%d%H%M%S")] *)
Definition strptime_YmdHMS (s : list ascii) : option datetime :=
  strptime_with [] s.

(** [datetime.strptime(s, "%Y%m%d%H%M%S.pkl")] *)
Definition strptime_YmdHMS_pkl (s : list ascii) : option datetime :=
  strptime_with [re_dot_pkl] s.

(* ================================================================== *)
(** ** The cache directory *)

Definition directory : Type := list (string * list byte).

Definition os_listdir (d : directory) : list string := map fst d.

Definition os_remove (filename : string) (d : directory) : directory :=
  filter (fun e => negb (String.eqb (fst e) filename)) d.

(** The content read through [open(path, 'rb')]. *)
Definition read_file (filename : string) (d : directory) : option (list byte) :=
  match find (fun e => String.eqb (fst e) filename) d with
  | Some e => Some (snd e)
  | None => None
  end.

(** [open(path, 'wb')] followed by writing [content]: an existing file is
    truncated and rewritten, a missing one is created. *)
Definition write_file (filename : string) (content : list byte) (d : directory)
  : directory :=
  if existsb (fun e => String.eqb (fst e) filename) d
  then map (fun e => if String.eqb (fst e) filename then (filename, content) else e) d
  else d ++ [(filename, content)].

(* ================================================================== *)
(** ** cacher.py *)

Definition weeks (n : Z) : timedelta := timedelta_of (7 * n) 0 0.
Definition days (n : Z) : timedelta := timedelta_of n 0 0.

(** Truth value of the [name] argument: [None] and the empty string are
    false. *)
Definition truthy (name : option string) : bool :=
  match name with
  | Some n => negb (String.eqb n "")
  | None => false
  end.

Definition name_str (name : option string) : string :=
  match name with Some n => n | None => "" end.

(** [f"{name}_{key}" if name else key] *)
Definition file_prefix (name : option string) (key : string) : string :=
  if truthy name then (name_str name ++ "_" ++ key)%string else key.

(** [f"{file_prefix}_{now}.pkl"] *)
Definition entry_name (prefix stamp : string) : string :=
  (prefix ++ "_" ++ stamp ++ ".pkl")%string.

(** The [try] block of [check] (lines 133-137): [match.group] on a failed
    search raises AttributeError, [strptime] raises ValueError. *)
Definition check_try (filename : string) : outcome datetime :=
  match re_search_stamp (chars filename) with
  | None => Raise AttributeError
  | Some timestamp_str =>
      match strptime_YmdHMS timestamp_str with
      | Some timestamp => Return timestamp
      | None => Raise ValueError
      end
  end.

(** The [try] block of [cache_this] (lines 58-60). *)
Definition wrapper_try (filename : string) : outcome datetime :=
  match split_underscore (chars filename) with
  | None => Raise ValueError
  | Some (_, timestamp_str) =>
      match strptime_YmdHMS_pkl timestamp_str with
      | Some timestamp => Return timestamp
      | None => Raise ValueError
      end
  end.

(** Lines 105-106 and 167-168: [if not isinstance(args, tuple): args = (args,)] *)
Definition as_tuple (args : pyval) : pyval :=
  if isinstance_tuple args then args else PTuple [args].

(** Lines 109-110 and 171-172: [if kwargs is None: kwargs = {}] *)
Definition as_dict (kwargs : pyval) : pyval :=
  match kwargs with PNone => PDict [] | _ => kwargs end.

Section Cacher.

Context {R : Runtime}.

(** [hashlib.sha256(pickle.dumps((args, kwargs))).hexdigest()]; [None] when
    [pickle.dumps] raises. *)
Definition fingerprint (args kwargs : pyval) : option string :=
  match pickle_dumps (PTuple [args; kwargs]) with
  | Some pickled => Some (sha256_hexdigest pickled)
  | None => None
  end.

(** The loop over [os.listdir(cache_dir)], written once for [check] (lines
    128-149) and [cache_this] (lines 54-78), which differ in their [try]
    block only. [Some r] is a [return] (or an exception) from inside the
    loop, [None] is the loop running to its end. Both [except] clauses
    catch ValueError and TypeError and nothing else. *)
Fixpoint scan (try_block : string -> outcome datetime)
    (name : option string) (prefix : string)
    (now : datetime) (time_limit : timedelta)
    (listing : list string) (d : directory)
  : option (outcome pyval) * directory :=
  match listing with
  | [] => (None, d)
  | filename :: rest =>
      if truthy name && negb (startswith filename (name_str name)) then
        scan try_block name prefix now time_limit rest d
      else if startswith filename prefix then
        match try_block filename with
        | Raise ValueError | Raise TypeError =>
            scan try_block name prefix now time_limit rest (os_remove filename d)
        | Raise e => (Some (Raise e), d)
        | Return timestamp =>
            if datetime_sub now timestamp <=? time_limit then
              match read_file filename d with
              | None => (Some (Raise FileNotFoundError), d)
              | Some content =>
                  match pickle_loads content with
                  | Some value => (Some (Return value), d)
                  | None => (Some (Raise UnpicklingError), d)
                  end
              end
            else
              scan try_block name prefix now time_limit rest (os_remove filename d)
        end
      else scan try_block name prefix now time_limit rest d
  end.

(** [check(args, kwargs, name, time_limit)] run at time [now] on directory
    [d]: the value returned (a pair) or the exception raised, and the
    directory afterwards. *)
Definition check (args kwargs : pyval) (name : option string)
    (time_limit : timedelta) (now : datetime) (d : directory)
  : outcome (bool * pyval) * directory :=
  let args := as_tuple args in
  let kwargs := as_dict kwargs in
  match fingerprint args kwargs with
  | None => (Return (false, PNone), d)
  | Some key =>
      match scan check_try name (file_prefix name key) now time_limit
                 (os_listdir d) d with
      | (Some (Return value), d') => (Return (true, value), d')
      | (Some (Raise e), d') => (Raise e, d')
      | (None, d') => (Return (false, PNone), d')
      end
  end.

(** [store(result, args, kwargs, name)] run at time [now]; its [time_limit]
    parameter is never used. It returns [None] on both of its paths. When
    [pickle.dump] raises the file has already been opened for writing. *)
Definition store (result args kwargs : pyval) (name : option string)
    (now : datetime) (d : directory)
  : outcome pyval * directory :=
  let args := as_tuple args in
  let kwargs := as_dict kwargs in
  match fingerprint args kwargs with
  | None => (Return PNone, d)
  | Some key =>
      let new_file := entry_name (file_prefix name key) (strftime_YmdHMS now) in
      match pickle_dumps result with
      | Some content => (Return PNone, write_file new_file content d)
      | None => (Raise PicklingError, write_file new_file [] d)
      end
  end.

(** The [wrapper] that [cache_this(name, time_limit)] puts around [func],
    called with positional [args] and keyword [kwargs] at time [now]:
    outcome, directory afterwards, and how often [func] was invoked. *)
Definition cache_this (name : option string) (time_limit : timedelta)
    (func : list pyval -> list (pyval * pyval) -> outcome pyval)
    (args : list pyval) (kwargs : list (pyval * pyval))
    (now : datetime) (d : directory)
  : outcome pyval * directory * nat :=
  let current_time_str := strftime_YmdHMS now in
  let key :=
    match fingerprint (PTuple args) (PDict kwargs) with
    | Some key => key
    | None => "key_error"%string
    end in
  let prefix := file_prefix name key in
  match scan wrapper_try name prefix now time_limit (os_listdir d) d with
  | (Some r, d') => (r, d', O)
  | (None, d') =>
      match func args kwargs with
      | Raise e => (Raise e, d', 1%nat)
      | Return result =>
          let new_file := entry_name prefix current_time_str in
          match pickle_dumps result with
          | Some content => (Return result, write_file new_file content d', 1%nat)
          | None => (Raise PicklingError, write_file new_file [] d', 1%nat)
          end
      end
  end.

End Cacher.

(* ================================================================== *)
(** ** A small runtime for closed examples *)

Definition byte_of_Z (z : Z) : byte :=
  match Byte.of_N (Z.to_N z) with Some b => b | None => x00 end.

(** A structural encoding: [PObject]s, strings and integers outside
    0..255 cannot be serialized. *)
Fixpoint sample_dumps (v : pyval) : option (list byte) :=
  let fix dumps_list (l : list pyval) : option (list byte) :=
    match l with
    | [] => Some []
    | x :: l' =>
        match sample_dumps x, dumps_list l' with
        | Some a, Some b => Some (a ++ b)
        | _, _ => None
        end
    end in
  let fix dumps_items (l : list (pyval * pyval)) : option (list byte) :=
    match l with
    | [] => Some []
    | (k, x) :: l' =>
        match sample_dumps k, sample_dumps x, dumps_items l' with
        | Some a, Some b, Some c => Some (a ++ b ++ c)
        | _, _, _ => None
        end
    end in
  match v with
  | PNone => Some ["N"%byte]
  | PBool true => Some [x88]
  | PBool false => Some [x89]
  | PInt z => if (0 <=? z) && (z <? 256) then Some ["K"%byte; byte_of_Z z] else None
  | PStr _ => None
  | PTuple l => option_map (fun b => "("%byte :: b ++ [")"%byte]) (dumps_list l)
  | PList l => option_map (fun b => "["%byte :: b ++ ["]"%byte]) (dumps_list l)
  | PDict l => option_map (fun b => "{"%byte :: b ++ ["}"%byte]) (dumps_items l)
  | PObject _ => None
  end.

(** Decodes [None], booleans and small integers; any other content is a
    corrupt payload. *)
Definition sample_loads (b : list byte) : option pyval :=
  match b with
  | [c] => if Byte.eqb c "N" then Some PNone
           else if Byte.eqb c x88 then Some (PBool true)
           else if Byte.eqb c x89 then Some (PBool false)
           else None
  | [c; n] => if Byte.eqb c "K" then Some (PInt (Z.of_N (Byte.to_N n))) else None
  | _ => None
  end.

Definition hex_digit (n : N) : ascii :=
  nth (N.to_nat n)
      ["0"; "1"; "2"; "3"; "4"; "5"; "6"; "7"; "8"; "9";
       "a"; "b"; "c"; "d"; "e"; "f"]%char "0"%char.

Definition hex_of_bytes (b : list byte) : list ascii :=
  flat_map (fun x => [hex_digit (Byte.to_N x / 16); hex_digit (Byte.to_N x mod 16)]) b.

(** 64 hexadecimal digits: the bytes in hexadecimal, cut or zero filled. *)
Definition sample_hexdigest (b : list byte) : string :=
  string_of_list_ascii (firstn 64 (hex_of_bytes b ++ repeat "0"%char 64)).

Definition sample_runtime : Runtime :=
  {| pickle_dumps := sample_dumps;
     pickle_loads := sample_loads;
     sha256_hexdigest := sample_hexdigest |}.


(* ================================================================== *)
(** ** Vocabulary for the statements *)

(** What one pass of the loop body does with a listed file. *)
Inductive verdict : Type :=
| Skip              (* not examined: wrong name or wrong prefix *)
| Drop              (* examined and deleted: ValueError, or too old *)
| Hit               (* examined and live: its payload is loaded *)
| Fail (e : exn).   (* the [try] block raised what no clause catches *)

Definition classify (try_block : string -> outcome datetime)
    (name : option string) (prefix : string)
    (now : datetime) (time_limit : timedelta) (filename : string) : verdict :=
  if truthy name && negb (startswith filename (name_str name)) then Skip
  else if startswith filename prefix then
    match try_block filename with
    | Raise ValueError | Raise TypeError => Drop
    | Raise e => Fail e
    | Return timestamp =>
        if datetime_sub now timestamp <=? time_limit then Hit else Drop
    end
  else Skip.

Definition is_drop (v : verdict) : bool :=
  match v with Drop => true | _ => false end.

(** The timestamp a file name can carry: [t] at second resolution. *)
Definition to_seconds (t : datetime) : datetime :=
  mkdatetime (year t) (month t) (day t) (hour t) (minute t) (second t) 0.

Definition has_underscore (s : string) : bool :=
  existsb (Ascii.eqb "_") (chars s).

(** The text [m] is accepted, character by character, by the classes
    [ks]. *)
Definition accepted (ks : list cclass) (m : list ascii) : Prop :=
  Forall2 (fun k c => accepts k c = true) ks m.

(** What a successful match looks like: each group's text is accepted by
    one of the group's alternatives. *)
Definition group_ok (alts : list (list cclass)) (g : list ascii) : Prop :=
  exists a, In a alts /\ accepted a g.

(** Lines 144-147 (and 71-74): open the file and unpickle it. *)
Definition load_entry {R : Runtime} (filename : string) (d : directory)
  : option (outcome pyval) :=
  match read_file filename d with
  | None => Some (Raise FileNotFoundError)
  | Some content =>
      match pickle_loads content with
      | Some value => Some (Return value)
      | None => Some (Raise UnpicklingError)
      end
  end.

(** The directory after [os.remove] of each of [names]. *)
Definition remove_all (names : list string) (d : directory) : directory :=
  fold_left (fun d' x => os_remove x d') names d.

(** A file the lookup passes over or deletes: it neither answers the
    lookup nor stops it. *)
Definition harmless (v : verdict) : Prop := v = Skip \/ v = Drop.

(** The names among [listing] that the loop deletes when it runs through
    all of them. *)
Definition dropped (verdict_of : string -> verdict) (listing : list string)
  : list string :=
  filter (fun x => is_drop (verdict_of x)) listing.

(** Whether some character class of the pattern accepts [c]. *)
Definition regex_accepts (re : regex) (c : ascii) : bool :=
  existsb (fun k => accepts k c) (List.concat (List.concat re)).

(** The longest text a group can match. *)
Definition group_width (alts : list (list cclass)) : nat :=
  fold_right (fun a n => Nat.max (List.length a) n) O alts.

Definition regex_width (re : regex) : nat :=
  fold_right (fun alts n => (group_width alts + n)%nat) O re.

(** The name ends in a 14-digit token followed by ".pkl". *)
Definition ends_with_stamp (s : list ascii) : Prop :=
  exists pre ds, s = pre ++ ds ++ chars ".pkl" /\ accepted (repeat Digit 14) ds.

(** Two directories hold the same files with the same contents; the order
    in which they list them may differ. *)
Definition same_files (d1 d2 : directory) : Prop :=
  forall x, read_file x d1 = read_file x d2.

(** A value of [datetime.now()] whose year has four digits (as [strftime]
    is modelled for). *)
Definition clock_ok (t : datetime) : Prop :=
  valid_datetime t = true /\ 1000 <= year t.

(** ** Sample data for closed examples *)

Module Sample.

Definition args12 : pyval := PTuple [PInt 1; PInt 2].

(** The fingerprint of [((1, 2), {})] under [sample_runtime]. *)
Definition key12 : string :=
  "28284b014b02297b7d2900000000000000000000000000000000000000000000".

Definition at_11 : datetime := mkdatetime 2024 1 15 11 0 0 0.
Definition noon : datetime := mkdatetime 2024 1 15 12 0 0 250000.
Definition noon_later : datetime := mkdatetime 2024 1 15 12 0 0 900000.
Definition after_noon : datetime := mkdatetime 2024 1 15 12 0 5 0.
Definition two_days_on : datetime := mkdatetime 2024 1 17 12 0 0 0.
Definition three_days_on : datetime := mkdatetime 2024 1 18 12 0 1 0.

Definition file_11 : string := (key12 ++ "_20240115110000.pkl")%string.
Definition file_12 : string := (key12 ++ "_20240115120000.pkl")%string.
Definition file_broken : string := (key12 ++ "_latest.pkl")%string.


(** The wrapped function of the module's own demonstration: [a + b]. *)
Definition add (args : list pyval) (kwargs : list (pyval * pyval)) : outcome pyval :=
  match args with
  | [PInt a; PInt b] => Return (PInt (a + b))
  | _ => Raise (UserError 0)
  end.

(** A function of any arguments: [len(args)]. *)
Definition arity (args : list pyval) (kwargs : list (pyval * pyval)) : outcome pyval :=
  Return (PInt (Z.of_nat (List.length args))).

End Sample.

(** ** The demonstration under [__main__] (lines 201-218) *)

(** [my_function(a, b)], for integer arguments: [a + b]. *)
Definition my_function (a b : Z) : pyval := PInt (a + b).

(** [function_with_cache_check(a, b)] for integers [a] and [b]: the clock is
    read once by [check] ([now_check]) and, on a miss, once by [store]
    ([now_store]). [check] runs with its default limit of three days. *)
Definition function_with_cache_check {R : Runtime} (a b : Z)
    (now_check now_store : datetime) (d : directory)
  : outcome pyval * directory :=
  match check (PTuple [PInt a; PInt b]) PNone (Some "my_function"%string) (days 3)
              now_check d with
  | (Raise e, d') => (Raise e, d')
  | (Return (true, data), d') => (Return data, d')
  | (Return (false, _), d') =>
      let result := my_function a b in
      match store result (PTuple [PInt a; PInt b]) PNone (Some "my_function"%string)
                  now_store d' with
      | (Raise e, d'') => (Raise e, d'')
      | (Return _, d'') => (Return result, d'')
      end
  end.

(* ================================================================== *)
(** * Properties *)

(** ** Strings *)

Lemma chars_append (a b : string) : chars (a ++ b) = chars a ++ chars b.
Proof.
  unfold chars. induction a as [|c a IH]; simpl; [reflexivity|].
  now rewrite IH.
Qed.

Lemma chars_inj (a b : string) : chars a = chars b -> a = b.
Proof.
  unfold chars. intros H.
  rewrite <- (string_of_list_ascii_of_string a), <- (string_of_list_ascii_of_string b).
  now rewrite H.
Qed.

Lemma chars_of_list (l : list ascii) : chars (string_of_list_ascii l) = l.
Proof. apply list_ascii_of_string_of_list_ascii. Qed.

Lemma list_startswith_app (p r : list ascii) : list_startswith p (p ++ r) = true.
Proof.
  induction p as [|a p IH]; simpl; [reflexivity|].
  now rewrite Ascii.eqb_refl, IH.
Qed.

Lemma list_startswith_inv (p s : list ascii) :
  list_startswith p s = true -> exists r, s = p ++ r.
Proof.
  revert s. induction p as [|a p IH]; intros s H; simpl in *.
  - now exists s.
  - destruct s as [|b s]; [discriminate|].
    apply andb_true_iff in H as [Hab H].
    apply Ascii.eqb_eq in Hab. subst b.
    destruct (IH _ H) as [r ->]. now exists r.
Qed.

Lemma list_startswith_app_l (p q s : list ascii) :
  list_startswith (p ++ q) s = true -> list_startswith p s = true.
Proof.
  intros H. destruct (list_startswith_inv _ _ H) as [r ->].
  rewrite <- app_assoc. apply list_startswith_app.
Qed.

Lemma startswith_append (p r : string) : startswith (p ++ r) p = true.
Proof. unfold startswith. rewrite chars_append. apply list_startswith_app. Qed.

Lemma startswith_inv (s p : string) :
  startswith s p = true -> exists r, s = (p ++ r)%string.
Proof.
  unfold startswith. intros H.
  destruct (list_startswith_inv _ _ H) as [r Hr].
  exists (string_of_list_ascii r). apply chars_inj.
  now rewrite chars_append, chars_of_list.
Qed.

Lemma append_assoc (a b c : string) : ((a ++ b) ++ c = a ++ (b ++ c))%string.
Proof. induction a as [|x a IH]; simpl; [reflexivity|]. now rewrite IH. Qed.

(** A file that carries the file prefix also carries the name. *)
Lemma prefix_passes_name_filter (name : option string) (key filename : string) :
  startswith filename (file_prefix name key) = true ->
  truthy name && negb (startswith filename (name_str name)) = false.
Proof.
  unfold file_prefix. destruct (truthy name); [|reflexivity].
  unfold startswith. rewrite chars_append. intros H.
  now rewrite (list_startswith_app_l _ _ _ H).
Qed.

(** An entry written under a name passes both tests of the loop. *)
Lemma entry_name_startswith_prefix (prefix stamp : string) :
  startswith (entry_name prefix stamp) prefix = true.
Proof. unfold entry_name. apply startswith_append. Qed.

Lemma entry_name_startswith_name (name : option string) (key stamp : string) :
  truthy name = true ->
  startswith (entry_name (file_prefix name key) stamp) (name_str name) = true.
Proof.
  intros Hn. unfold entry_name, file_prefix. rewrite Hn.
  rewrite append_assoc. apply startswith_append.
Qed.

(** ** The regular-expression matcher *)

Lemma match_seq_sound (ks : list cclass) :
  forall s m r, match_seq ks s = Some (m, r) -> s = m ++ r /\ accepted ks m.
Proof.
  induction ks as [|k ks IH]; intros s m r H; simpl in H.
  - inversion H; subst. split; [reflexivity | constructor].
  - destruct s as [|c s]; [discriminate|].
    destruct (accepts k c) eqn:Hk; [|discriminate].
    destruct (match_seq ks s) as [[m' r']|] eqn:Hm; [|discriminate].
    inversion H; subst. destruct (IH _ _ _ Hm) as [-> Hacc].
    split; [reflexivity | now constructor].
Qed.

Lemma match_seq_complete (ks : list cclass) :
  forall m r, accepted ks m -> match_seq ks (m ++ r) = Some (m, r).
Proof.
  induction ks as [|k ks IH]; intros m r H; inversion H; subst; simpl.
  - reflexivity.
  - rewrite H2. now rewrite IH.
Qed.

Lemma accepted_length (ks : list cclass) (m : list ascii) :
  accepted ks m -> List.length m = List.length ks.
Proof. intros H. symmetry. exact (Forall2_length H). Qed.

Lemma try_alts_sound k (P : list (list ascii) -> list ascii -> list ascii -> Prop) :
  forall alts s gs r,
    (forall s' gs' r', k s' = Some (gs', r') -> P gs' s' r') ->
    try_alts k alts s = Some (gs, r) ->
    exists g gs' s', gs = g :: gs' /\ s = g ++ s' /\ group_ok alts g /\ P gs' s' r.
Proof.
  induction alts as [|a alts IH]; intros s gs r Hk H; simpl in H; [discriminate|].
  assert (Hnext : try_alts k alts s = Some (gs, r) ->
                  exists g gs' s', gs = g :: gs' /\ s = g ++ s' /\
                                   group_ok (a :: alts) g /\ P gs' s' r).
  { intros H'. destruct (IH _ _ _ Hk H') as (g & gs' & s' & ? & ? & (a' & ? & ?) & ?).
    exists g, gs', s'. repeat split; auto. exists a'. split; [now right | assumption]. }
  destruct (match_seq a s) as [[m r0]|] eqn:Hm; [|now apply Hnext].
  destruct (k r0) as [[gs0 r1]|] eqn:Hk0; [|now apply Hnext].
  inversion H; subst. apply match_seq_sound in Hm as [-> Hacc].
  exists m, gs0, r0. repeat split; auto.
  exists a. split; [now left | assumption].
Qed.

Lemma match_regex_sound (re : regex) :
  forall s gs r, match_regex re s = Some (gs, r) ->
                 s = List.concat gs ++ r /\ Forall2 group_ok re gs.
Proof.
  induction re as [|alts re IH]; intros s gs r H; simpl in H.
  - inversion H; subst. split; [reflexivity | constructor].
  - apply (try_alts_sound (match_regex re)
             (fun gs' s' r' => s' = List.concat gs' ++ r' /\ Forall2 group_ok re gs')) in H.
    + destruct H as (g & gs' & s' & -> & -> & Hg & -> & Hall).
      split; [simpl; now rewrite app_assoc | now constructor].
    + intros s' gs' r' H'. now apply IH.
Qed.

(** A group whose first alternative matches and lets the rest succeed. *)
Lemma try_alts_first k a alts m r gs r' :
  accepted a m -> k r = Some (gs, r') ->
  try_alts k (a :: alts) (m ++ r) = Some (m :: gs, r').
Proof.
  intros Ha Hk. simpl. rewrite (match_seq_complete _ _ r Ha). now rewrite Hk.
Qed.

(** ** Timestamps: formatting and parsing *)

Lemma Z_below_ind (P : Z -> Prop) (n : nat) :
  (forall i, (i < n)%nat -> P (Z.of_nat i)) ->
  forall v, 0 <= v < Z.of_nat n -> P v.
Proof.
  intros H v Hv. rewrite <- (Z2Nat.id v) by lia. apply H. lia.
Qed.

Lemma digit_char_accepted (n : Z) : accepts Digit (digit_char n) = true.
Proof.
  destruct n as [|p|p]; try reflexivity.
  do 4 (destruct p as [p|p|]; try reflexivity).
Qed.

Lemma digit_char_value (n : Z) :
  0 <= n <= 9 -> digit_value (digit_char n) = n /\ Ascii.eqb (digit_char n) " " = false.
Proof.
  intros Hn. assert (H : 0 <= n < Z.of_nat 10) by (simpl; lia).
  clear Hn. pattern n. apply (Z_below_ind _ 10); [|exact H]. clear n H.
  intros i Hi.
  do 10 (destruct i as [|i]; [split; reflexivity|]). lia.
Qed.

Lemma zero_pad_2 (v : Z) :
  zero_pad 2 v = [digit_char ((v / 10) mod 10); digit_char (v mod 10)].
Proof. reflexivity. Qed.

Lemma zero_pad_4 (v : Z) :
  zero_pad 4 v = [digit_char ((v / 10 / 10 / 10) mod 10); digit_char ((v / 10 / 10) mod 10);
                  digit_char ((v / 10) mod 10); digit_char (v mod 10)].
Proof. reflexivity. Qed.

Lemma zero_pad_digits (w : nat) : forall v, accepted (repeat Digit w) (zero_pad w v).
Proof.
  induction w as [|w IH]; intros v; simpl; [constructor|].
  replace (Digit :: repeat Digit w) with (repeat Digit w ++ [Digit]).
  - apply Forall2_app; [apply IH|]. constructor; [apply digit_char_accepted | constructor].
  - clear. induction w; simpl; [reflexivity | now rewrite IHw].
Qed.

Lemma py_int_zero_pad_2 (v : Z) : 0 <= v < 100 -> py_int (zero_pad 2 v) = v.
Proof.
  intros Hv. rewrite zero_pad_2. unfold py_int. simpl.
  destruct (digit_char_value ((v / 10) mod 10)) as [-> ->];
    [pose proof (Z.mod_pos_bound (v / 10) 10); lia|].
  destruct (digit_char_value (v mod 10)) as [-> ->];
    [pose proof (Z.mod_pos_bound v 10); lia|].
  pose proof (Z.div_mod v 10). rewrite (Z.mod_small (v / 10) 10); [lia|].
  split; [apply Z.div_pos; lia | apply Z.div_lt_upper_bound; lia].
Qed.

Lemma py_int_zero_pad_4 (v : Z) : 0 <= v < 10000 -> py_int (zero_pad 4 v) = v.
Proof.
  intros Hv. rewrite zero_pad_4. unfold py_int. simpl.
  destruct (digit_char_value ((v / 10 / 10 / 10) mod 10)) as [-> ->];
    [pose proof (Z.mod_pos_bound (v / 10 / 10 / 10) 10); lia|].
  destruct (digit_char_value ((v / 10 / 10) mod 10)) as [-> ->];
    [pose proof (Z.mod_pos_bound (v / 10 / 10) 10); lia|].
  destruct (digit_char_value ((v / 10) mod 10)) as [-> ->];
    [pose proof (Z.mod_pos_bound (v / 10) 10); lia|].
  destruct (digit_char_value (v mod 10)) as [-> ->];
    [pose proof (Z.mod_pos_bound v 10); lia|].
  pose proof (Z.div_mod v 10). pose proof (Z.div_mod (v / 10) 10).
  pose proof (Z.div_mod (v / 10 / 10) 10).
  rewrite (Z.mod_small (v / 10 / 10 / 10) 10); [lia|].
  split.
  - repeat apply Z.div_pos; lia.
  - repeat (apply Z.div_lt_upper_bound; [lia|]). lia.
Qed.

(** Each two-digit field, written by [strftime], is read back whole by its
    group: the two-digit alternatives come first. *)
Section Fields.

Variable k : list ascii -> option (list (list ascii) * list ascii).
Variables (r : list ascii) (gs : list (list ascii)) (r' : list ascii).
Hypothesis Hk : k r = Some (gs, r').

Lemma field_Y (v : Z) :
  try_alts k re_Y (zero_pad 4 v ++ r) = Some (zero_pad 4 v :: gs, r').
Proof.
  unfold re_Y. apply try_alts_first; [|exact Hk]. exact (zero_pad_digits 4 v).
Qed.

Lemma field_m (v : Z) : 1 <= v <= 12 ->
  try_alts k re_m (zero_pad 2 v ++ r) = Some (zero_pad 2 v :: gs, r').
Proof.
  intros Hv. assert (H : 0 <= v < Z.of_nat 13) by (simpl; lia).
  revert Hv. pattern v. apply (Z_below_ind _ 13); [|exact H]. clear v H.
  intros i Hi.
  do 13 (destruct i as [|i];
         [intros Hv; try lia; simpl; rewrite Hk; reflexivity|]).
  lia.
Qed.

Lemma field_d (v : Z) : 1 <= v <= 31 ->
  try_alts k re_d (zero_pad 2 v ++ r) = Some (zero_pad 2 v :: gs, r').
Proof.
  intros Hv. assert (H : 0 <= v < Z.of_nat 32) by (simpl; lia).
  revert Hv. pattern v. apply (Z_below_ind _ 32); [|exact H]. clear v H.
  intros i Hi.
  do 32 (destruct i as [|i];
         [intros Hv; try lia; simpl; rewrite Hk; reflexivity|]).
  lia.
Qed.

Lemma field_H (v : Z) : 0 <= v <= 23 ->
  try_alts k re_H (zero_pad 2 v ++ r) = Some (zero_pad 2 v :: gs, r').
Proof.
  intros Hv. assert (H : 0 <= v < Z.of_nat 24) by (simpl; lia).
  revert Hv. pattern v. apply (Z_below_ind _ 24); [|exact H]. clear v H.
  intros i Hi.
  do 24 (destruct i as [|i];
         [intros Hv; try lia; simpl; rewrite Hk; reflexivity|]).
  lia.
Qed.

Lemma field_M (v : Z) : 0 <= v <= 59 ->
  try_alts k re_M (zero_pad 2 v ++ r) = Some (zero_pad 2 v :: gs, r').
Proof.
  intros Hv. assert (H : 0 <= v < Z.of_nat 60) by (simpl; lia).
  revert Hv. pattern v. apply (Z_below_ind _ 60); [|exact H]. clear v H.
  intros i Hi.
  do 60 (destruct i as [|i];
         [intros Hv; try lia; simpl; rewrite Hk; reflexivity|]).
  lia.
Qed.

Lemma field_S (v : Z) : 0 <= v <= 59 ->
  try_alts k re_S (zero_pad 2 v ++ r) = Some (zero_pad 2 v :: gs, r').
Proof.
  intros Hv. assert (H : 0 <= v < Z.of_nat 60) by (simpl; lia).
  revert Hv. pattern v. apply (Z_below_ind _ 60); [|exact H]. clear v H.
  intros i Hi.
  do 60 (destruct i as [|i];
         [intros Hv; try lia; simpl; rewrite Hk; reflexivity|]).
  lia.
Qed.

End Fields.

Lemma valid_datetime_spec (t : datetime) :
  valid_datetime t = true <->
  (1 <= year t <= 9999 /\ 1 <= month t <= 12 /\
   1 <= day t <= days_in_month (year t) (month t) /\
   0 <= hour t <= 23 /\ 0 <= minute t <= 59 /\ 0 <= second t <= 59 /\
   0 <= microsecond t <= 999999).
Proof.
  unfold valid_datetime. rewrite !andb_true_iff, !Z.leb_le. tauto.
Qed.

Lemma days_in_month_le_31 (y m : Z) : days_in_month y m <= 31.
Proof.
  unfold days_in_month.
  destruct (m =? 2); [destruct (is_leap y); lia|].
  destruct ((m =? 4) || (m =? 6) || (m =? 9) || (m =? 11)); lia.
Qed.

Lemma valid_to_seconds (t : datetime) :
  valid_datetime t = true -> valid_datetime (to_seconds t) = true.
Proof.
  rewrite !valid_datetime_spec. simpl. intuition lia.
Qed.

(** The six groups read back what [strftime] wrote, whatever literal
    follows them in the format. *)
Lemma match_fields (t : datetime) (literal : regex) (r : list ascii)
    (gs : list (list ascii)) (r' : list ascii) :
  valid_datetime t = true ->
  match_regex literal r = Some (gs, r') ->
  match_regex ([re_Y; re_m; re_d; re_H; re_M; re_S] ++ literal)
              (chars (strftime_YmdHMS t) ++ r)
  = Some (zero_pad 4 (year t) :: zero_pad 2 (month t) :: zero_pad 2 (day t) ::
          zero_pad 2 (hour t) :: zero_pad 2 (minute t) :: zero_pad 2 (second t) :: gs,
          r').
Proof.
  intros Hv Hlit. apply valid_datetime_spec in Hv.
  destruct Hv as (Hy & Hm & Hd & HH & HM & HS & _).
  pose proof (days_in_month_le_31 (year t) (month t)) as H31.
  unfold strftime_YmdHMS. rewrite chars_of_list, <- !app_assoc.
  cbn [app match_regex].
  apply field_Y, field_m; [|lia]. apply field_d; [|lia].
  apply field_H; [|lia]. apply field_M; [|lia]. apply field_S; [|lia].
  exact Hlit.
Qed.

Lemma strptime_with_strftime (t : datetime) (literal : regex) (r : list ascii)
    (gs : list (list ascii)) :
  valid_datetime t = true ->
  match_regex literal r = Some (gs, []) ->
  strptime_with literal (chars (strftime_YmdHMS t) ++ r) = Some (to_seconds t).
Proof.
  intros Hv Hlit. unfold strptime_with.
  rewrite (match_fields t literal r gs [] Hv Hlit).
  pose proof Hv as Hv'. apply valid_datetime_spec in Hv'.
  destruct Hv' as (Hy & Hm & Hd & HH & HM & HS & _).
  pose proof (days_in_month_le_31 (year t) (month t)) as H31.
  rewrite py_int_zero_pad_4 by lia.
  rewrite !py_int_zero_pad_2 by lia.
  change (mkdatetime (year t) (month t) (day t) (hour t) (minute t) (second t) 0)
    with (to_seconds t).
  now rewrite (valid_to_seconds t Hv).
Qed.

(** [strptime(now.strftime(fmt), fmt)] is [now] at second resolution. *)
Lemma strptime_strftime (t : datetime) :
  valid_datetime t = true ->
  strptime_YmdHMS (chars (strftime_YmdHMS t)) = Some (to_seconds t).
Proof.
  intros Hv. unfold strptime_YmdHMS.
  rewrite <- (app_nil_r (chars (strftime_YmdHMS t))).
  now apply (strptime_with_strftime t [] [] []).
Qed.

Lemma strftime_digits (t : datetime) :
  accepted (repeat Digit 14) (chars (strftime_YmdHMS t)).
Proof.
  unfold strftime_YmdHMS. rewrite chars_of_list.
  change (repeat Digit 14)
    with (repeat Digit 4 ++ repeat Digit 2 ++ repeat Digit 2 ++
          repeat Digit 2 ++ repeat Digit 2 ++ repeat Digit 2).
  repeat apply Forall2_app; apply zero_pad_digits.
Qed.

Lemma re_search_stamp_eq (s : list ascii) :
  re_search_stamp s =
  match (match match_regex stamp_pattern s with
         | Some (g :: _, r) => if at_dollar r then Some g else None
         | _ => None
         end) with
  | Some g => Some g
  | None => match s with
            | [] => None
            | _ :: s' => re_search_stamp s'
            end
  end.
Proof. destruct s; reflexivity. Qed.

Lemma stamp_pattern_here (ds : list ascii) :
  accepted (repeat Digit 14) ds ->
  match_regex stamp_pattern (ds ++ chars ".pkl") = Some ([ds; chars ".pkl"], []).
Proof.
  intros Hds. unfold stamp_pattern. cbn [match_regex].
  now apply try_alts_first.
Qed.

(** Before the last 18 characters of a name that ends in ".pkl" the
    pattern cannot match: [$] would not hold. *)
Lemma stamp_pattern_not_before (c : ascii) (pre ds : list ascii) gs r :
  List.length ds = 14%nat ->
  match_regex stamp_pattern (c :: pre ++ ds ++ chars ".pkl") = Some (gs, r) ->
  at_dollar r = false.
Proof.
  intros Hlen H. apply match_regex_sound in H as [Hs Hgs].
  unfold stamp_pattern in Hgs.
  inversion Hgs as [|a1 g1 l1 gs1 Hg1 Hrest]; subst.
  inversion Hrest as [|a2 g2 l2 gs2 Hg2 Hnil]; subst.
  inversion Hnil; subst.
  destruct Hg1 as (a1 & [<-|[]] & Ha1). destruct Hg2 as (a2 & [<-|[]] & Ha2).
  apply accepted_length in Ha1, Ha2. simpl in Ha1, Ha2.
  assert (Hl : List.length (c :: pre ++ ds ++ chars ".pkl")
               = List.length (List.concat [g1; g2] ++ r)) by now rewrite Hs.
  simpl in Hl. rewrite !length_app in Hl. simpl in Hl.
  destruct r as [|x [|y r]]; simpl in *; try reflexivity.
  - lia.
  - destruct pre as [|? pre]; [|simpl in Hl; lia].
    simpl in Hs.
    assert (Hx : x = "l"%char).
    { assert (E : c :: ds ++ ["."; "p"; "k"; "l"]%char
                  = (c :: ds ++ ["."; "p"; "k"]%char) ++ ["l"%char])
        by (simpl; now rewrite <- app_assoc).
      rewrite E in Hs. apply app_inj_tail in Hs. now destruct Hs as [_ <-]. }
    now subst x.
Qed.

Lemma re_search_stamp_suffix (pre ds : list ascii) :
  accepted (repeat Digit 14) ds ->
  re_search_stamp (pre ++ ds ++ chars ".pkl") = Some ds.
Proof.
  intros Hds. induction pre as [|c pre IH]; rewrite re_search_stamp_eq.
  - change ([] ++ ds ++ chars ".pkl") with (ds ++ chars ".pkl").
    now rewrite (stamp_pattern_here ds Hds).
  - destruct (match_regex stamp_pattern ((c :: pre) ++ ds ++ chars ".pkl"))
      as [[[|g gs] r]|] eqn:Hm; try exact IH.
    change ((c :: pre) ++ ds ++ chars ".pkl") with (c :: pre ++ ds ++ chars ".pkl") in Hm.
    rewrite (stamp_pattern_not_before c pre ds (g :: gs) r); [exact IH| |exact Hm].
    rewrite (accepted_length _ _ Hds). apply repeat_length.
Qed.

(** The name [store] gives an entry is read back by [check]. *)
Lemma check_try_entry_name (prefix : string) (t : datetime) :
  valid_datetime t = true ->
  check_try (entry_name prefix (strftime_YmdHMS t)) = Return (to_seconds t).
Proof.
  intros Hv. unfold check_try, entry_name.
  rewrite !chars_append, app_assoc.
  rewrite (re_search_stamp_suffix _ _ (strftime_digits t)).
  now rewrite (strptime_strftime t Hv).
Qed.

Lemma accepted_dot_pkl (g : list ascii) :
  accepted [Lit "."; Lit "p"; Lit "k"; Lit "l"] g -> g = chars ".pkl".
Proof.
  intros H. unfold accepted in H.
  inversion H as [|k1 c1 ks1 m1 E1 H1]; subst; clear H.
  inversion H1 as [|k2 c2 ks2 m2 E2 H2]; subst; clear H1.
  inversion H2 as [|k3 c3 ks3 m3 E3 H3]; subst; clear H2.
  inversion H3 as [|k4 c4 ks4 m4 E4 H4]; subst; clear H3.
  inversion H4; subst; clear H4.
  cbn [accepts] in E1, E2, E3, E4.
  apply Ascii.eqb_eq in E1, E2, E3, E4. now subst.
Qed.

(** A successful search has found 14 digits and ".pkl" at the end of the
    name, or just before a final newline. *)
Lemma re_search_stamp_sound (s g : list ascii) :
  re_search_stamp s = Some g ->
  exists pre tail,
    s = pre ++ g ++ chars ".pkl" ++ tail /\ at_dollar tail = true /\
    accepted (repeat Digit 14) g.
Proof.
  induction s as [|c s IH]; rewrite re_search_stamp_eq.
  - simpl. discriminate.
  - destruct (match_regex stamp_pattern (c :: s)) as [[[|g1 gs] r]|] eqn:Hm.
    + intros H. destruct (IH H) as (pre & tail & -> & Ht & Hg).
      now exists (c :: pre), tail.
    + destruct (at_dollar r) eqn:Hr.
      * intros H. inversion H; subst g1. clear H IH.
        apply match_regex_sound in Hm as [Hs Hgs]. unfold stamp_pattern in Hgs.
        inversion Hgs as [|a1 g1 l1 gs1 Hg1 Hrest]; subst.
        inversion Hrest as [|a2 g2 l2 gs2 Hg2 Hnil]; subst.
        inversion Hnil; subst.
        destruct Hg1 as (a1 & [<-|[]] & Ha1). destruct Hg2 as (a2 & [<-|[]] & Ha2).
        apply accepted_dot_pkl in Ha2. subst g2.
        exists [], r. split; [|split; assumption].
        rewrite Hs. cbn [List.concat]. now rewrite app_nil_r, <- app_assoc.
      * intros H. destruct (IH H) as (pre & tail & -> & Ht & Hg).
        now exists (c :: pre), tail.
    + intros H. destruct (IH H) as (pre & tail & -> & Ht & Hg).
      now exists (c :: pre), tail.
Qed.

(** In a name without newline that does not end in a timestamp and ".pkl"
    the search finds nothing. *)
Lemma re_search_stamp_none (s : list ascii) :
  ~ ends_with_stamp s -> ~ In "010"%char s -> re_search_stamp s = None.
Proof.
  intros Hend Hnl. destruct (re_search_stamp s) as [g|] eqn:H; [|reflexivity].
  exfalso. apply re_search_stamp_sound in H as (pre & tail & -> & Ht & Hg).
  destruct tail as [|x [|y tail]]; simpl in Ht; try discriminate.
  - apply Hend. exists pre, g. now rewrite app_nil_r.
  - apply Ascii.eqb_eq in Ht. subst x. apply Hnl.
    apply in_or_app. right. apply in_or_app. right. apply in_or_app. right. now left.
Qed.

(** ** The directory *)

Lemma os_remove_comm (x y : string) (d : directory) :
  os_remove x (os_remove y d) = os_remove y (os_remove x d).
Proof.
  unfold os_remove. induction d as [|e d IH]; simpl; [reflexivity|].
  destruct (String.eqb (fst e) y) eqn:Hy, (String.eqb (fst e) x) eqn:Hx;
    simpl; rewrite ?Hx, ?Hy; simpl; now rewrite ?IH.
Qed.

Lemma read_file_remove_other (x y : string) (d : directory) :
  x <> y -> read_file x (os_remove y d) = read_file x d.
Proof.
  intros Hxy. unfold read_file, os_remove.
  induction d as [|e d IH]; simpl; [reflexivity|].
  destruct (String.eqb (fst e) y) eqn:Hy; simpl.
  - apply String.eqb_eq in Hy.
    destruct (String.eqb (fst e) x) eqn:Hx; [|exact IH].
    apply String.eqb_eq in Hx. congruence.
  - destruct (String.eqb (fst e) x); [reflexivity | exact IH].
Qed.

Lemma read_file_write_same (x : string) (c : list byte) (d : directory) :
  read_file x (write_file x c d) = Some c.
Proof.
  unfold read_file, write_file.
  destruct (existsb (fun e => String.eqb (fst e) x) d) eqn:Hex.
  - induction d as [|e d IH]; simpl in *; [discriminate|].
    destruct (String.eqb (fst e) x) eqn:Hx; simpl.
    + now rewrite String.eqb_refl.
    + rewrite Hx. now apply IH.
  - induction d as [|e d IH]; simpl in *.
    + now rewrite String.eqb_refl.
    + apply orb_false_iff in Hex as [Hx Hex]. rewrite Hx. now apply IH.
Qed.

Lemma read_file_write_other (x y : string) (c : list byte) (d : directory) :
  x <> y -> read_file x (write_file y c d) = read_file x d.
Proof.
  intros Hxy. unfold read_file, write_file.
  assert (Hyx : String.eqb y x = false) by (apply String.eqb_neq; congruence).
  destruct (existsb (fun e => String.eqb (fst e) y) d).
  - induction d as [|e d IH]; simpl; [reflexivity|].
    destruct (String.eqb (fst e) y) eqn:Hy; simpl.
    + rewrite Hyx. apply String.eqb_eq in Hy.
      destruct (String.eqb (fst e) x) eqn:Hx; [|exact IH].
      apply String.eqb_eq in Hx. congruence.
    + destruct (String.eqb (fst e) x); [reflexivity | exact IH].
  - induction d as [|e d IH]; simpl.
    + now rewrite Hyx.
    + destruct (String.eqb (fst e) x); [reflexivity | exact IH].
Qed.

Lemma read_file_None (x : string) (d : directory) :
  read_file x d = None <-> ~ In x (os_listdir d).
Proof.
  unfold read_file, os_listdir. induction d as [|e d IH]; simpl; [tauto|].
  destruct (String.eqb (fst e) x) eqn:Hx.
  - apply String.eqb_eq in Hx. split; [discriminate | tauto].
  - apply String.eqb_neq in Hx. tauto.
Qed.

Lemma read_file_Some (x : string) (d : directory) :
  In x (os_listdir d) <-> exists c, read_file x d = Some c.
Proof.
  split.
  - intros Hin. destruct (read_file x d) as [c|] eqn:H; [now exists c|].
    apply read_file_None in H. contradiction.
  - intros [c Hc]. destruct (in_dec string_dec x (os_listdir d)) as [Hin|Hin];
      [exact Hin|].
    apply read_file_None in Hin. congruence.
Qed.

Lemma same_files_listdir (d1 d2 : directory) (x : string) :
  same_files d1 d2 -> In x (os_listdir d1) -> In x (os_listdir d2).
Proof.
  intros Hsame Hin. apply read_file_Some in Hin as [c Hc].
  apply read_file_Some. exists c. now rewrite <- Hsame.
Qed.

Lemma listdir_write_file (x y : string) (c : list byte) (d : directory) :
  In x (os_listdir (write_file y c d)) <-> x = y \/ In x (os_listdir d).
Proof.
  unfold os_listdir, write_file.
  destruct (existsb (fun e => String.eqb (fst e) y) d) eqn:Hex.
  - apply existsb_exists in Hex as (e0 & Hin & He0). apply String.eqb_eq in He0.
    rewrite map_map. split.
    + intros H. apply in_map_iff in H as (e & <- & He).
      destruct (String.eqb (fst e) y); simpl; [now left|].
      right. now apply in_map.
    + intros [->|H].
      * apply in_map_iff. exists e0. split; [|exact Hin].
        apply String.eqb_eq in He0. now rewrite He0.
      * apply in_map_iff in H as (e & <- & He). apply in_map_iff. exists e.
        split; [|exact He].
        destruct (String.eqb (fst e) y) eqn:Hy; [|reflexivity].
        apply String.eqb_eq in Hy. now simpl.
  - rewrite map_app, in_app_iff. simpl. intuition congruence.
Qed.

Lemma listdir_remove (x : string) (d : directory) :
  os_listdir (os_remove x d) = filter (fun y => negb (String.eqb y x)) (os_listdir d).
Proof.
  unfold os_listdir, os_remove. induction d as [|e d IH]; simpl; [reflexivity|].
  destruct (String.eqb (fst e) x); simpl; now rewrite IH.
Qed.

Lemma remove_all_spec (names : list string) :
  forall d, remove_all names d
            = filter (fun e => negb (existsb (String.eqb (fst e)) names)) d.
Proof.
  unfold remove_all. induction names as [|x names IH]; intros d; simpl.
  - induction d as [|e d IHd]; simpl; [reflexivity | now rewrite <- IHd].
  - rewrite IH. unfold os_remove. clear IH.
    induction d as [|e d IHd]; simpl; [reflexivity|].
    destruct (String.eqb (fst e) x); simpl; [exact IHd|].
    destruct (existsb (String.eqb (fst e)) names); simpl; now rewrite IHd.
Qed.

Lemma read_file_remove_all_other (x : string) (names : list string) :
  forall d, ~ In x names -> read_file x (remove_all names d) = read_file x d.
Proof.
  unfold remove_all. induction names as [|y names IH]; intros d Hx; simpl; [reflexivity|].
  rewrite IH by (simpl in Hx; tauto).
  apply read_file_remove_other. simpl in Hx. intuition congruence.
Qed.

Lemma read_file_remove_all_same (x : string) (names : list string) (d : directory) :
  In x names -> read_file x (remove_all names d) = None.
Proof.
  intros Hx. apply read_file_None. rewrite remove_all_spec.
  unfold os_listdir. intros H. apply in_map_iff in H as (e & <- & He).
  apply filter_In in He as [_ He]. apply negb_true_iff in He.
  assert (Ht : existsb (String.eqb (fst e)) names = true); [|congruence].
  apply existsb_exists. exists (fst e). split; [exact Hx | apply String.eqb_refl].
Qed.

(** ** The scan *)

Section Scan.

Context {R : Runtime}.
Variable try_block : string -> outcome datetime.
Variable name : option string.
Variable prefix : string.
Variable now : datetime.
Variable time_limit : timedelta.

Local Abbreviation scan' := (scan try_block name prefix now time_limit).
Local Abbreviation verdict_of := (classify try_block name prefix now time_limit).

(** One pass of the loop body, by the verdict on the file. *)
Lemma scan_cons (filename : string) (rest : list string) (d : directory) :
  scan' (filename :: rest) d =
  match verdict_of filename with
  | Skip => scan' rest d
  | Drop => scan' rest (os_remove filename d)
  | Hit => (load_entry filename d, d)
  | Fail e => (Some (Raise e), d)
  end.
Proof.
  unfold classify, load_entry. simpl.
  destruct (truthy name && negb (startswith filename (name_str name))); [reflexivity|].
  destruct (startswith filename prefix); [|reflexivity].
  destruct (try_block filename) as [ts|e].
  - destruct (datetime_sub now ts <=? time_limit); [|reflexivity].
    destruct (read_file filename d) as [c|]; [|reflexivity].
    destruct (pickle_loads c); reflexivity.
  - destruct e; reflexivity.
Qed.

(** A scan that meets harmless files only runs to the end of the listing
    and deletes exactly the files it drops. *)
Lemma scan_all_harmless (listing : list string) :
  forall d,
    (forall x, In x listing -> harmless (verdict_of x)) ->
    scan' listing d = (None, remove_all (dropped verdict_of listing) d).
Proof.
  induction listing as [|x listing IH]; intros d Hall; [reflexivity|].
  rewrite scan_cons. unfold dropped. simpl.
  destruct (Hall x (or_introl eq_refl)) as [Hx|Hx]; rewrite Hx; simpl;
    apply IH; intros y Hy; apply Hall; now right.
Qed.

(** The first live entry of the listing answers the scan. *)
Lemma scan_first_hit (pre post : list string) (filename : string) :
  forall d,
    (forall x, In x pre -> harmless (verdict_of x)) ->
    verdict_of filename = Hit ->
    scan' (pre ++ filename :: post) d =
    (load_entry filename (remove_all (dropped verdict_of pre) d),
     remove_all (dropped verdict_of pre) d).
Proof.
  induction pre as [|x pre IH]; intros d Hall Hhit.
  - change ([] ++ filename :: post) with (filename :: post).
    rewrite scan_cons, Hhit. reflexivity.
  - change ((x :: pre) ++ filename :: post) with (x :: pre ++ filename :: post).
    rewrite scan_cons. unfold dropped. simpl.
    destruct (Hall x (or_introl eq_refl)) as [Hx|Hx]; rewrite Hx; simpl;
      apply IH; auto; intros y Hy; apply Hall; now right.
Qed.

(** The first file that is neither skipped nor dropped and raises stops
    the scan with its exception. *)
Lemma scan_first_fail (pre post : list string) (filename : string) (e : exn) :
  forall d,
    (forall x, In x pre -> harmless (verdict_of x)) ->
    verdict_of filename = Fail e ->
    scan' (pre ++ filename :: post) d =
    (Some (Raise e), remove_all (dropped verdict_of pre) d).
Proof.
  induction pre as [|x pre IH]; intros d Hall Hfail.
  - change ([] ++ filename :: post) with (filename :: post).
    rewrite scan_cons, Hfail. reflexivity.
  - change ((x :: pre) ++ filename :: post) with (x :: pre ++ filename :: post).
    rewrite scan_cons. unfold dropped. simpl.
    destruct (Hall x (or_introl eq_refl)) as [Hx|Hx]; rewrite Hx; simpl;
      apply IH; auto; intros y Hy; apply Hall; now right.
Qed.

(** A live entry answers the scan wherever it is listed, as long as every
    other listed file is harmless. *)
Lemma scan_hit (filename : string) (content : list byte) (value : pyval)
    (listing : list string) :
  forall d,
    In filename listing ->
    verdict_of filename = Hit ->
    (forall x, In x listing -> x <> filename -> harmless (verdict_of x)) ->
    read_file filename d = Some content ->
    pickle_loads content = Some value ->
    fst (scan' listing d) = Some (Return value).
Proof.
  induction listing as [|x listing IH]; intros d Hin Hhit Hall Hread Hload;
    [contradiction|].
  rewrite scan_cons.
  destruct (String.eqb x filename) eqn:Hx.
  - apply String.eqb_eq in Hx. subst x. rewrite Hhit. simpl.
    unfold load_entry. now rewrite Hread, Hload.
  - apply String.eqb_neq in Hx.
    assert (Hin' : In filename listing) by (destruct Hin; [congruence | assumption]).
    assert (Hall' : forall y, In y listing -> y <> filename -> harmless (verdict_of y))
      by (intros y Hy; apply Hall; now right).
    destruct (Hall x (or_introl eq_refl) Hx) as [Hv|Hv]; rewrite Hv.
    + now apply IH.
    + apply IH; auto. rewrite read_file_remove_other; [assumption | congruence].
Qed.

(** The scan only ever deletes files it has dropped: the directory
    afterwards is the directory before without some dropped files. *)
Lemma scan_directory (listing : list string) :
  forall d, exists names,
    snd (scan' listing d) = remove_all names d /\
    (forall x, In x names -> In x listing /\ verdict_of x = Drop).
Proof.
  induction listing as [|x listing IH]; intros d.
  - exists []. split; [reflexivity | contradiction].
  - rewrite scan_cons. destruct (verdict_of x) eqn:Hx.
    + destruct (IH d) as (names & Hd & Hnames). exists names. split; [exact Hd|].
      intros y Hy. destruct (Hnames y Hy). split; [now right | assumption].
    + destruct (IH (os_remove x d)) as (names & Hd & Hnames). exists (x :: names).
      split; [exact Hd|].
      intros y [<-|Hy]; [split; [now left | assumption]|].
      destruct (Hnames y Hy). split; [now right | assumption].
    + exists []. split; [reflexivity | contradiction].
    + exists []. split; [reflexivity | contradiction].
Qed.

(** A file that is not dropped is still there, with its content. *)
Lemma scan_keeps (listing : list string) (d : directory) (x : string) :
  verdict_of x <> Drop ->
  read_file x (snd (scan' listing d)) = read_file x d.
Proof.
  intros Hx. destruct (scan_directory listing d) as (names & -> & Hnames).
  apply read_file_remove_all_other. intros Hin.
  destruct (Hnames x Hin) as [_ Hd]. contradiction.
Qed.

(** A skipped file is not read either: without it the scan has the same
    outcome and makes the same deletions. *)
Lemma scan_skip_unread (x : string) (listing : list string) :
  verdict_of x = Skip ->
  forall d,
    scan' (filter (fun y => negb (String.eqb y x)) listing) (os_remove x d)
    = (fst (scan' listing d), os_remove x (snd (scan' listing d))).
Proof.
  intros Hx. induction listing as [|y listing IH]; intros d; [reflexivity|].
  simpl filter. destruct (String.eqb y x) eqn:Hyx; simpl negb; cbv iota.
  - apply String.eqb_eq in Hyx. subst y.
    rewrite (scan_cons x listing d), Hx. apply IH.
  - apply String.eqb_neq in Hyx.
    rewrite !scan_cons. destruct (verdict_of y) eqn:Hy.
    + apply IH.
    + rewrite os_remove_comm. apply IH.
    + simpl. unfold load_entry. now rewrite read_file_remove_other.
    + reflexivity.
Qed.

End Scan.

(** ** Entries written by [store] *)

Section Entries.

Context {R : Runtime}.

Lemma datetime_sub_to_seconds (a b : datetime) :
  datetime_sub a (to_seconds b) = datetime_sub a b + microsecond b.
Proof.
  unfold datetime_sub, timedelta_of, toordinal, to_seconds. simpl. lia.
Qed.

Lemma entry_passes_filters (name : option string) (key stamp : string) :
  truthy name && negb (startswith (entry_name (file_prefix name key) stamp) (name_str name))
  = false.
Proof.
  destruct (truthy name) eqn:Hn; [|reflexivity].
  now rewrite entry_name_startswith_name.
Qed.

(** How [check] at time [now] judges the entry written at time [t]. *)
Lemma entry_verdict (name : option string) (key : string) (t now : datetime)
    (time_limit : timedelta) :
  valid_datetime t = true ->
  classify check_try name (file_prefix name key) now time_limit
           (entry_name (file_prefix name key) (strftime_YmdHMS t))
  = if datetime_sub now (to_seconds t) <=? time_limit then Hit else Drop.
Proof.
  intros Hv. unfold classify.
  rewrite entry_passes_filters, entry_name_startswith_prefix.
  now rewrite check_try_entry_name.
Qed.

Lemma store_directory (result args kwargs : pyval) (name : option string)
    (now : datetime) (d : directory) (key : string) :
  fingerprint (as_tuple args) (as_dict kwargs) = Some key ->
  snd (store result args kwargs name now d)
  = write_file (entry_name (file_prefix name key) (strftime_YmdHMS now))
               (match pickle_dumps result with Some c => c | None => [] end) d.
Proof.
  intros Hk. unfold store. rewrite Hk. now destruct (pickle_dumps result).
Qed.

Lemma check_scan (args kwargs : pyval) (name : option string)
    (time_limit : timedelta) (now : datetime) (d : directory) (key : string) :
  fingerprint (as_tuple args) (as_dict kwargs) = Some key ->
  check args kwargs name time_limit now d
  = match scan check_try name (file_prefix name key) now time_limit (os_listdir d) d with
    | (Some (Return value), d') => (Return (true, value), d')
    | (Some (Raise e), d') => (Raise e, d')
    | (None, d') => (Return (false, PNone), d')
    end.
Proof. intros Hk. unfold check. now rewrite Hk. Qed.

(** A directory with the files of [write_file new c d], however listed. *)
Lemma same_files_written (d1 d : directory) (new : string) (c : list byte) :
  same_files d1 (write_file new c d) ->
  In new (os_listdir d1) /\
  read_file new d1 = Some c /\
  (forall x, In x (os_listdir d1) -> x <> new -> In x (os_listdir d)).
Proof.
  intros Hsame.
  assert (Hnew : read_file new d1 = Some c)
    by (rewrite Hsame; apply read_file_write_same).
  split; [apply read_file_Some; now exists c|]. split; [exact Hnew|].
  intros x Hx Hne. apply (same_files_listdir _ _ x Hsame) in Hx.
  apply listdir_write_file in Hx. destruct Hx; [contradiction | assumption].
Qed.

End Entries.

(* ================================================================== *)
(** * The claims *)

(** C10. For a non-tuple [x], [check] and [store] called with [args = x]
    return the same result and leave the same directory as when called with
    [args = (x,)]; and a call with [kwargs] omitted ([None]) is the same as
    a call with [kwargs = {}]. *)
Theorem check_store_normalise_arguments {R : Runtime}
    (x : pyval) (name : option string) (time_limit : timedelta)
    (now : datetime) (d : directory) :
  isinstance_tuple x = false ->
  (forall kwargs,
      fingerprint (as_tuple x) (as_dict kwargs)
      = fingerprint (as_tuple (PTuple [x])) (as_dict kwargs)) /\
  (forall args,
      fingerprint (as_tuple args) (as_dict PNone)
      = fingerprint (as_tuple args) (as_dict (PDict []))) /\
  (forall kwargs,
      check x kwargs name time_limit now d
      = check (PTuple [x]) kwargs name time_limit now d) /\
  (forall result kwargs,
      store result x kwargs name now d
      = store result (PTuple [x]) kwargs name now d) /\
  (forall args,
      check args PNone name time_limit now d
      = check args (PDict []) name time_limit now d) /\
  (forall result args,
      store result args PNone name now d
      = store result args (PDict []) name now d).
Proof.
  intros Hx. unfold check, store, as_tuple. rewrite Hx. simpl.
  repeat split; reflexivity.
Qed.

Lemma check_store_normalise_arguments_witness :
  isinstance_tuple (PInt 1) = false /\
  (forall kwargs,
      @check sample_runtime (PInt 1) kwargs (Some "m"%string) (days 3) Sample.noon []
      = @check sample_runtime (PTuple [PInt 1]) kwargs (Some "m"%string) (days 3)
               Sample.noon []).
Proof.
  split; [reflexivity|].
  apply (@check_store_normalise_arguments sample_runtime (PInt 1) (Some "m"%string)
           (days 3) Sample.noon [] eq_refl).
Defined.

(** C1 (as amended). [store(v, args, kwargs, ns)] followed by
    [check(args, kwargs, ns, limit)] returns [(True, v)] when the entry has
    not expired and every other file of the cache directory that the lookup
    examines is harmless: a well-formed entry that has expired, or one with
    an impossible date. This holds in whatever order the directory lists
    its files. *)
Theorem store_then_check_roundtrip {R : Runtime}
    (v args kwargs : pyval) (name : option string) (time_limit : timedelta)
    (t now : datetime) (d d1 : directory) (key : string) (content : list byte) :
  fingerprint (as_tuple args) (as_dict kwargs) = Some key ->
  pickle_dumps v = Some content ->
  pickle_loads content = Some v ->
  clock_ok t ->
  datetime_sub now (to_seconds t) <= time_limit ->
  (forall x, In x (os_listdir d) ->
             x <> entry_name (file_prefix name key) (strftime_YmdHMS t) ->
             harmless (classify check_try name (file_prefix name key) now time_limit x)) ->
  same_files d1 (snd (store v args kwargs name t d)) ->
  fst (check args kwargs name time_limit now d1) = Return (true, v).
Proof.
  intros Hkey Hdump Hload [Hvalid _] Hage Hothers Hsame.
  rewrite store_directory with (key := key) in Hsame by exact Hkey.
  rewrite Hdump in Hsame.
  rewrite check_scan with (key := key) by exact Hkey.
  set (new_file := entry_name (file_prefix name key) (strftime_YmdHMS t)) in *.
  destruct (same_files_written d1 d new_file content Hsame) as (Hin & Hread & Hrest).
  assert (Hscan : fst (scan check_try name (file_prefix name key) now time_limit
                            (os_listdir d1) d1) = Some (Return v)).
  { apply (scan_hit check_try name (file_prefix name key) now time_limit
             new_file content v).
    - exact Hin.
    - unfold new_file. rewrite (entry_verdict name key t now time_limit Hvalid).
      apply Z.leb_le in Hage. now rewrite Hage.
    - intros x Hx Hne. apply Hothers; [|exact Hne]. now apply Hrest.
    - exact Hread.
    - exact Hload. }
  destruct (scan check_try name (file_prefix name key) now time_limit (os_listdir d1) d1)
    as [[[value|e]|] d'] eqn:Hs; simpl in Hscan; inversion Hscan; reflexivity.
Qed.

Lemma store_then_check_roundtrip_witness :
  let d := [(Sample.file_11, ["K"%byte; x01])] in
  datetime_sub Sample.three_days_on (to_seconds Sample.noon) <= days 3 + 1000000 /\
  fst (check (R := sample_runtime) Sample.args12 PNone None (days 3 + 1000000)
         Sample.three_days_on
         (snd (store (R := sample_runtime) (PInt 3) Sample.args12 PNone None
                 Sample.noon d)))
  = Return (true, PInt 3).
Proof.
  intros d.
  assert (Hage : datetime_sub Sample.three_days_on (to_seconds Sample.noon)
                 <= days 3 + 1000000) by (vm_compute; discriminate).
  split; [exact Hage|].
  apply (store_then_check_roundtrip (R := sample_runtime) (PInt 3) Sample.args12 PNone
           None (days 3 + 1000000) Sample.noon Sample.three_days_on d
           (snd (store (R := sample_runtime) (PInt 3) Sample.args12 PNone None
                   Sample.noon d))
           Sample.key12 ["K"%byte; x03]).
  - reflexivity.
  - reflexivity.
  - reflexivity.
  - split; [reflexivity | vm_compute; discriminate].
  - exact Hage.
  - intros x [<-|[]] _. right. reflexivity.
  - intros x. reflexivity.
Defined.

(** C1, counterexample. The directory already holds a live entry for the
    key, written at 11:00 with payload 1; [store] of 2 under the same key
    at noon, followed at once by [check], returns [(True, 1)] when the
    older file is listed first (as in a listing sorted by name). *)
Lemma store_then_check_roundtrip_counterexample :
  let d := [(Sample.file_11, ["K"%byte; x01])] in
  pickle_dumps (Runtime := sample_runtime) (PInt 2) = Some ["K"%byte; x02] /\
  pickle_loads (Runtime := sample_runtime) ["K"%byte; x02] = Some (PInt 2) /\
  snd (store (R := sample_runtime) (PInt 2) Sample.args12 PNone None Sample.noon d)
  = [(Sample.file_11, ["K"%byte; x01]); (Sample.file_12, ["K"%byte; x02])] /\
  fst (check (R := sample_runtime) Sample.args12 PNone None (days 3) Sample.noon
         (snd (store (R := sample_runtime) (PInt 2) Sample.args12 PNone None
                 Sample.noon d)))
  = Return (true, PInt 1) /\
  Return (true, PInt 1) <> Return (true, PInt 2).
Proof.
  intros d. repeat split; try reflexivity. discriminate.
Qed.



(** Outside that scenario: [store] at noon on January 15, a second [store]
    of the same key two days later, and a [check] with a limit of three
    days one second after the first entry has expired. The lookup is
    answered by the later entry, [(True, 4)], in whichever order the two
    files are listed. *)
Lemma later_store_answers_after_expiry :
  let d1 := snd (store (R := sample_runtime) (PInt 3) Sample.args12 PNone None
                   Sample.noon []) in
  let d2 := snd (store (R := sample_runtime) (PInt 4) Sample.args12 PNone None
                   Sample.two_days_on d1) in
  datetime_sub Sample.three_days_on Sample.noon > days 3 /\
  fst (check (R := sample_runtime) Sample.args12 PNone None (days 3)
         Sample.three_days_on d2)
  = Return (true, PInt 4) /\
  fst (check (R := sample_runtime) Sample.args12 PNone None (days 3)
         Sample.three_days_on (rev d2))
  = Return (true, PInt 4) /\
  Return (true, PInt 4) <> Return (false, PNone).
Proof.
  intros d1 d2. repeat split; try reflexivity. discriminate.
Qed.

(** ** What a lookup does with the files it meets *)

Section Lookup.

Context {R : Runtime}.
Variables (args kwargs : pyval) (name : option string).
Variables (time_limit : timedelta) (now : datetime) (d : directory).
Variable key : string.
Hypothesis Hkey : fingerprint (as_tuple args) (as_dict kwargs) = Some key.

Local Abbreviation verdict_of :=
  (classify check_try name (file_prefix name key) now time_limit).

Lemma not_dropped (pre : list string) (x : string) :
  verdict_of x <> Drop -> ~ In x (dropped verdict_of pre).
Proof.
  intros Hx Hin. apply filter_In in Hin as [_ Hd].
  destruct (verdict_of x); try discriminate. now apply Hx.
Qed.

Lemma check_first_hit (pre post : list string) (filename : string) :
  os_listdir d = pre ++ filename :: post ->
  (forall x, In x pre -> harmless (verdict_of x)) ->
  verdict_of filename = Hit ->
  check args kwargs name time_limit now d
  = (match load_entry filename d with
     | Some (Return value) => Return (true, value)
     | Some (Raise e) => Raise e
     | None => Return (false, PNone)
     end, remove_all (dropped verdict_of pre) d).
Proof.
  intros Hlist Hpre Hhit.
  rewrite check_scan with (key := key) by exact Hkey.
  rewrite Hlist, scan_first_hit by assumption.
  assert (Hl : load_entry filename (remove_all (dropped verdict_of pre) d)
               = load_entry filename d).
  { unfold load_entry. rewrite read_file_remove_all_other; [reflexivity|].
    apply not_dropped. rewrite Hhit. discriminate. }
  rewrite Hl. destruct (load_entry filename d) as [[value|e]|]; reflexivity.
Qed.

End Lookup.

(** C4 (as amended). Among several entries of one key, [check] answers
    from the first live one in the order of the directory listing, not
    from the newest, provided that no file with the prefix and a malformed
    name is listed before it (every file before it is harmless: on a
    malformed name the lookup raises, see C3) and that its payload
    unpickles, to [v] (otherwise the exception propagates, see C9). It
    then returns [(True, v)]; the files listed before it that it drops
    (expired, or with an impossible date) are deleted, and every other file
    stays as it is, whether it is listed before or after the entry
    returned, and whether it is older, newer or expired. *)
Theorem check_returns_first_live {R : Runtime}
    (args kwargs : pyval) (name : option string) (time_limit : timedelta)
    (now : datetime) (d : directory) (key : string)
    (pre post : list string) (filename : string) (content : list byte) (v : pyval) :
  fingerprint (as_tuple args) (as_dict kwargs) = Some key ->
  os_listdir d = pre ++ filename :: post ->
  (forall x, In x pre ->
             harmless (classify check_try name (file_prefix name key) now time_limit x)) ->
  classify check_try name (file_prefix name key) now time_limit filename = Hit ->
  read_file filename d = Some content ->
  pickle_loads content = Some v ->
  let dropped_before :=
    dropped (classify check_try name (file_prefix name key) now time_limit) pre in
  check args kwargs name time_limit now d
  = (Return (true, v), remove_all dropped_before d) /\
  (forall x, ~ In x dropped_before ->
             read_file x (remove_all dropped_before d) = read_file x d).
Proof.
  intros Hkey Hlist Hpre Hhit Hread Hload dropped_before. split.
  - rewrite (check_first_hit args kwargs name time_limit now d key Hkey
               pre post filename Hlist Hpre Hhit).
    unfold load_entry. now rewrite Hread, Hload.
  - intros x Hx. now apply read_file_remove_all_other.
Qed.

Lemma check_returns_first_live_witness :
  let d := [("unrelated.txt"%string, []);
            (Sample.file_11, ["K"%byte; x01]);
            (Sample.file_12, ["K"%byte; x02])] in
  check (R := sample_runtime) Sample.args12 PNone None (days 3) Sample.after_noon d
  = (Return (true, PInt 1), d).
Proof.
  intros d.
  apply (check_returns_first_live (R := sample_runtime) Sample.args12 PNone None
           (days 3) Sample.after_noon d Sample.key12
           ["unrelated.txt"%string] [Sample.file_12] Sample.file_11
           ["K"%byte; x01] (PInt 1)).
  - reflexivity.
  - reflexivity.
  - intros x [<-|[]]. left. reflexivity.
  - reflexivity.
  - reflexivity.
  - reflexivity.
Defined.

(** C4, counterexample. Two live entries of one key, written at 11:00 and
    at 12:00 and listed in that order: [check] answers with the payload of
    the older one and deletes nothing. *)
Lemma check_returns_newest_counterexample :
  let d := [(Sample.file_11, ["K"%byte; x01]);
            (Sample.file_12, ["K"%byte; x02])] in
  check_try Sample.file_11 = Return Sample.at_11 /\
  check_try Sample.file_12 = Return (to_seconds Sample.noon) /\
  datetime_sub Sample.after_noon Sample.at_11 <= days 3 /\
  datetime_sub Sample.after_noon (to_seconds Sample.noon) <= days 3 /\
  datetime_sub (to_seconds Sample.noon) Sample.at_11 > 0 /\
  check (R := sample_runtime) Sample.args12 PNone None (days 3) Sample.after_noon d
  = (Return (true, PInt 1), d).
Proof.
  intros d. repeat split; try reflexivity; vm_compute; discriminate.
Qed.

(** C9 (as amended). When [check] reaches a live entry whose payload does
    not unpickle, the exception of [pickle.load] reaches the caller and the
    entry stays in the directory. *)
Theorem check_unreadable_payload_raises {R : Runtime}
    (args kwargs : pyval) (name : option string) (time_limit : timedelta)
    (now : datetime) (d : directory) (key : string)
    (pre post : list string) (filename : string) (content : list byte) :
  fingerprint (as_tuple args) (as_dict kwargs) = Some key ->
  os_listdir d = pre ++ filename :: post ->
  (forall x, In x pre ->
             harmless (classify check_try name (file_prefix name key) now time_limit x)) ->
  classify check_try name (file_prefix name key) now time_limit filename = Hit ->
  read_file filename d = Some content ->
  pickle_loads content = None ->
  let after := check args kwargs name time_limit now d in
  fst after = Raise UnpicklingError /\
  read_file filename (snd after) = Some content.
Proof.
  intros Hkey Hlist Hpre Hhit Hread Hload after. subst after.
  rewrite (check_first_hit args kwargs name time_limit now d key Hkey
             pre post filename Hlist Hpre Hhit).
  unfold load_entry. rewrite Hread, Hload. simpl. split; [reflexivity|].
  rewrite read_file_remove_all_other; [exact Hread|].
  apply not_dropped. rewrite Hhit. discriminate.
Qed.

Lemma check_unreadable_payload_raises_witness :
  let d := [(Sample.file_12, ["K"%byte])] in
  let after := check (R := sample_runtime) Sample.args12 PNone None (days 3)
                 Sample.after_noon d in
  fst after = Raise UnpicklingError /\
  read_file Sample.file_12 (snd after) = Some ["K"%byte].
Proof.
  intros d.
  apply (check_unreadable_payload_raises (R := sample_runtime) Sample.args12 PNone None
           (days 3) Sample.after_noon d Sample.key12 [] [] Sample.file_12 ["K"%byte]).
  - reflexivity.
  - reflexivity.
  - intros x [].
  - reflexivity.
  - reflexivity.
  - reflexivity.
Defined.

(** C9, counterexample. A live entry whose payload is cut short: [check]
    raises instead of returning [(False, None)], and the file is still
    there. *)
Lemma check_unreadable_payload_counterexample :
  let d := [(Sample.file_12, ["K"%byte])] in
  pickle_loads (Runtime := sample_runtime) ["K"%byte] = None /\
  check (R := sample_runtime) Sample.args12 PNone None (days 3) Sample.after_noon d
  = (Raise UnpicklingError, d) /\
  Raise UnpicklingError <> Return (false, PNone).
Proof.
  intros d. repeat split; try reflexivity. discriminate.
Qed.

(** C3. What the code does with a file that carries the prefix but whose
    name (free of newlines) does not end in a 14-digit token and ".pkl",
    once the scan reaches it: [match] is [None], [match.group] raises
    AttributeError, which the [except (ValueError, TypeError)] clause does
    not catch; the lookup fails and the file stays. *)
Theorem check_malformed_name_raises {R : Runtime}
    (args kwargs : pyval) (name : option string) (time_limit : timedelta)
    (now : datetime) (d : directory) (key : string)
    (pre post : list string) (filename : string) :
  fingerprint (as_tuple args) (as_dict kwargs) = Some key ->
  os_listdir d = pre ++ filename :: post ->
  (forall x, In x pre ->
             harmless (classify check_try name (file_prefix name key) now time_limit x)) ->
  startswith filename (file_prefix name key) = true ->
  ~ ends_with_stamp (chars filename) ->
  ~ In "010"%char (chars filename) ->
  let after := check args kwargs name time_limit now d in
  fst after = Raise AttributeError /\
  read_file filename (snd after) = read_file filename d.
Proof.
  intros Hkey Hlist Hpre Hprefix Hend Hnl after. subst after.
  pose proof (prefix_passes_name_filter name key filename Hprefix) as Hname.
  pose proof (re_search_stamp_none (chars filename) Hend Hnl) as Hsearch.
  assert (Hfail : classify check_try name (file_prefix name key) now time_limit filename
                  = Fail AttributeError).
  { unfold classify, check_try. now rewrite Hname, Hprefix, Hsearch. }
  rewrite check_scan with (key := key) by exact Hkey.
  rewrite Hlist, scan_first_fail with (e := AttributeError) by assumption.
  simpl. split; [reflexivity|].
  apply read_file_remove_all_other.
  apply (not_dropped name time_limit now key). rewrite Hfail. discriminate.
Qed.

Lemma check_malformed_name_raises_witness :
  let d := [(Sample.file_broken, ["K"%byte; x01])] in
  let after := check (R := sample_runtime) Sample.args12 PNone None (days 3)
                 Sample.after_noon d in
  fst after = Raise AttributeError /\
  read_file Sample.file_broken (snd after) = Some ["K"%byte; x01].
Proof.
  intros d.
  apply (check_malformed_name_raises (R := sample_runtime) Sample.args12 PNone None
           (days 3) Sample.after_noon d Sample.key12 [] [] Sample.file_broken).
  - reflexivity.
  - reflexivity.
  - intros x [].
  - reflexivity.
  - intros (pre & ds & E & Hds).
    pose proof (re_search_stamp_suffix pre ds Hds) as H.
    rewrite <- E in H. discriminate H.
  - vm_compute. intuition discriminate.
Defined.

(** ** Entry names *)

Lemma strftime_to_seconds (t : datetime) :
  strftime_YmdHMS (to_seconds t) = strftime_YmdHMS t.
Proof. reflexivity. Qed.

Lemma strftime_injective (t1 t2 : datetime) :
  valid_datetime t1 = true -> valid_datetime t2 = true ->
  strftime_YmdHMS t1 = strftime_YmdHMS t2 -> to_seconds t1 = to_seconds t2.
Proof.
  intros H1 H2 Heq.
  pose proof (strptime_strftime t1 H1) as P1.
  pose proof (strptime_strftime t2 H2) as P2.
  rewrite Heq in P1. congruence.
Qed.

Lemma entry_name_injective (prefix s1 s2 : string) :
  entry_name prefix s1 = entry_name prefix s2 -> s1 = s2.
Proof.
  unfold entry_name. intros H. apply (f_equal chars) in H.
  rewrite !chars_append in H.
  apply app_inv_head in H. apply app_inv_head in H. apply app_inv_tail in H.
  now apply chars_inj.
Qed.

(** C7 (as amended). [store] writes one file, named after the namespace,
    the fingerprint and the time in whole seconds, and touches no other
    file. A later [store] of the same key in a different second leaves the
    earlier entry as it was; a later [store] of the same key within the
    same second writes to the same file and replaces its content. *)
Theorem store_overwrites_only_same_second {R : Runtime}
    (v1 v2 args kwargs : pyval) (name : option string)
    (t1 t2 : datetime) (d : directory) (key : string) (c1 c2 : list byte) :
  fingerprint (as_tuple args) (as_dict kwargs) = Some key ->
  pickle_dumps v1 = Some c1 ->
  pickle_dumps v2 = Some c2 ->
  clock_ok t1 -> clock_ok t2 ->
  let file1 := entry_name (file_prefix name key) (strftime_YmdHMS t1) in
  let d1 := snd (store v1 args kwargs name t1 d) in
  let d2 := snd (store v2 args kwargs name t2 d1) in
  (forall x, x <> file1 -> read_file x d1 = read_file x d) /\
  read_file file1 d1 = Some c1 /\
  (to_seconds t1 <> to_seconds t2 -> read_file file1 d2 = Some c1) /\
  (to_seconds t1 = to_seconds t2 -> read_file file1 d2 = Some c2).
Proof.
  intros Hkey Hd1 Hd2 [Hv1 _] [Hv2 _] file1 d1 d2. subst d2 d1.
  rewrite !store_directory with (key := key) by exact Hkey.
  rewrite Hd1, Hd2. fold file1.
  split; [|split; [|split]].
  - intros x Hx. now apply read_file_write_other.
  - apply read_file_write_same.
  - intros Hne. rewrite read_file_write_other; [apply read_file_write_same|].
    unfold file1. intros Heq. apply entry_name_injective in Heq.
    apply Hne. now apply strftime_injective.
  - intros Heq. rewrite <- (strftime_to_seconds t2), <- Heq, strftime_to_seconds.
    apply read_file_write_same.
Qed.

Lemma store_overwrites_only_same_second_witness :
  let d1 := snd (store (R := sample_runtime) (PInt 3) Sample.args12 PNone None
                   Sample.noon []) in
  let d2 := snd (store (R := sample_runtime) (PInt 4) Sample.args12 PNone None
                   Sample.two_days_on d1) in
  to_seconds Sample.noon <> to_seconds Sample.two_days_on /\
  read_file Sample.file_12 d2 = Some ["K"%byte; x03].
Proof.
  intros d1 d2.
  assert (Hne : to_seconds Sample.noon <> to_seconds Sample.two_days_on)
    by discriminate.
  split; [exact Hne|].
  apply (store_overwrites_only_same_second (R := sample_runtime) (PInt 3) (PInt 4)
           Sample.args12 PNone None Sample.noon Sample.two_days_on []
           Sample.key12 ["K"%byte; x03] ["K"%byte; x04]).
  - reflexivity.
  - reflexivity.
  - reflexivity.
  - split; [reflexivity | vm_compute; discriminate].
  - split; [reflexivity | vm_compute; discriminate].
  - exact Hne.
Defined.

(** C7, counterexample. Two calls of [store] with the same key within one
    second (12:00:00.25 and 12:00:00.90): both write to the same file, and
    the payload 3 of the first is replaced by the payload 4 of the
    second. *)
Lemma store_same_second_counterexample :
  let d1 := snd (store (R := sample_runtime) (PInt 3) Sample.args12 PNone None
                   Sample.noon []) in
  let d2 := snd (store (R := sample_runtime) (PInt 4) Sample.args12 PNone None
                   Sample.noon_later d1) in
  d1 = [(Sample.file_12, ["K"%byte; x03])] /\
  d2 = [(Sample.file_12, ["K"%byte; x04])].
Proof.
  intros d1 d2. split; reflexivity.
Qed.

(** ** Namespaces *)

Lemma underscore_free_prefix (a b k r : list ascii) :
  existsb (Ascii.eqb "_") a = false ->
  existsb (Ascii.eqb "_") b = false ->
  list_startswith (b ++ "_"%char :: k) (a ++ "_"%char :: r) = true ->
  a = b.
Proof.
  revert b. induction a as [|x a IH]; intros [|y b] Ha Hb H;
    cbn [list_startswith existsb app] in *.
  - reflexivity.
  - apply andb_true_iff in H as [H _]. apply orb_false_iff in Hb as [Hy _].
    apply Ascii.eqb_eq in H. subst y. now rewrite Ascii.eqb_refl in Hy.
  - apply andb_true_iff in H as [H _]. apply orb_false_iff in Ha as [Hx _].
    apply Ascii.eqb_eq in H. subst x. now rewrite Ascii.eqb_refl in Hx.
  - apply andb_true_iff in H as [Hxy H]. apply Ascii.eqb_eq in Hxy. subst y.
    apply orb_false_iff in Ha as [_ Ha]. apply orb_false_iff in Hb as [_ Hb].
    f_equal. now apply IH.
Qed.

(** Entries of two different namespaces without underscores never carry
    each other's prefix. *)
Lemma distinct_namespaces_disjoint (A B key stamp : string) :
  A <> ""%string -> B <> ""%string ->
  has_underscore A = false -> has_underscore B = false ->
  A <> B ->
  startswith (entry_name (file_prefix (Some A) key) stamp) (file_prefix (Some B) key)
  = false.
Proof.
  intros HA HB HuA HuB Hne.
  destruct (startswith _ _) eqn:Hs; [|reflexivity]. exfalso. apply Hne.
  unfold file_prefix, truthy, name_str in Hs.
  apply String.eqb_neq in HA, HB. rewrite HA, HB in Hs. simpl negb in Hs. cbv iota in Hs.
  unfold startswith, entry_name in Hs. rewrite !chars_append in Hs.
  rewrite <- !app_assoc in Hs.
  apply chars_inj.
  exact (underscore_free_prefix _ _ _ _ HuA HuB Hs).
Qed.




(** ** The [try] block of [cache_this] *)

Lemma accepted_chars (ks : list cclass) (m : list ascii) :
  accepted ks m ->
  forall c, In c m -> exists k, In k ks /\ accepts k c = true.
Proof.
  induction 1 as [|k c' ks m Hk Hacc IH]; intros c Hc; [contradiction|].
  destruct Hc as [<-|Hc].
  - exists k. split; [now left | exact Hk].
  - destruct (IH c Hc) as (k' & Hin & Hk'). exists k'. split; [now right | exact Hk'].
Qed.

Lemma groups_chars (re : regex) (gs : list (list ascii)) :
  Forall2 group_ok re gs ->
  forall c, In c (List.concat gs) -> regex_accepts re c = true.
Proof.
  induction 1 as [|alts g re gs Hg Hrest IH]; intros c Hc; [contradiction|].
  unfold regex_accepts. simpl in Hc. apply in_app_or in Hc.
  apply existsb_exists. destruct Hc as [Hc|Hc].
  - destruct Hg as (a & Ha & Hacc).
    destruct (accepted_chars a g Hacc c Hc) as (k & Hk & Hkc).
    exists k. split; [|exact Hkc].
    simpl. rewrite concat_app. apply in_or_app. left.
    apply in_concat. exists a. now split.
  - specialize (IH c Hc). unfold regex_accepts in IH.
    apply existsb_exists in IH as (k & Hk & Hkc).
    exists k. split; [|exact Hkc].
    simpl. rewrite concat_app. apply in_or_app. now right.
Qed.

Lemma group_ok_width (alts : list (list cclass)) (g : list ascii) :
  group_ok alts g -> (List.length g <= group_width alts)%nat.
Proof.
  intros (a & Ha & Hacc). rewrite (accepted_length a g Hacc). clear Hacc.
  induction alts as [|a' alts IH]; [contradiction|]. simpl.
  destruct Ha as [->|Ha]; [lia|]. specialize (IH Ha). lia.
Qed.

Lemma groups_width (re : regex) (gs : list (list ascii)) :
  Forall2 group_ok re gs -> (List.length (List.concat gs) <= regex_width re)%nat.
Proof.
  induction 1 as [|alts g re gs Hg Hrest IH]; simpl; [lia|].
  rewrite length_app. pose proof (group_ok_width alts g Hg). lia.
Qed.

(** A text that [strptime] accepts is made of characters the pattern
    accepts, and is no longer than the pattern. *)
Lemma strptime_with_text (literal : regex) (s : list ascii) (t : datetime) :
  strptime_with literal s = Some t ->
  (forall c, In c s ->
             regex_accepts ([re_Y; re_m; re_d; re_H; re_M; re_S] ++ literal) c = true) /\
  (List.length s <= regex_width ([re_Y; re_m; re_d; re_H; re_M; re_S] ++ literal))%nat.
Proof.
  unfold strptime_with. intros H.
  destruct (match_regex ([re_Y; re_m; re_d; re_H; re_M; re_S] ++ literal) s)
    as [[gs r]|] eqn:Hm; [|discriminate].
  destruct r as [|? ?];
    [|destruct gs as [|? [|? [|? [|? [|? [|? ?]]]]]]; discriminate].
  apply match_regex_sound in Hm as [-> Hgs]. rewrite app_nil_r. split.
  - now apply groups_chars.
  - now apply groups_width.
Qed.

Lemma strptime_pkl_rejects_e (s : list ascii) :
  In "e"%char s -> strptime_YmdHMS_pkl s = None.
Proof.
  intros He. destruct (strptime_YmdHMS_pkl s) as [t|] eqn:H; [|reflexivity].
  apply strptime_with_text in H as [H _]. specialize (H _ He). discriminate.
Qed.

Lemma strptime_pkl_length (s : list ascii) (t : datetime) :
  strptime_YmdHMS_pkl s = Some t -> (List.length s <= 18)%nat.
Proof.
  intros H. apply strptime_with_text in H as [_ H]. exact H.
Qed.

(** What follows the first underscore of [a ++ "_" ++ b] ends with [b]. *)
Lemma split_underscore_app (a b : list ascii) :
  exists a' pre, split_underscore (a ++ "_"%char :: b) = Some (a', pre ++ b).
Proof.
  induction a as [|c a IH]; cbn [app split_underscore].
  - rewrite Ascii.eqb_refl. now exists [], [].
  - destruct (Ascii.eqb c "_").
    + exists [], (a ++ ["_"%char]). now rewrite <- app_assoc.
    + destruct IH as (a' & pre & ->). now exists (c :: a'), pre.
Qed.

Lemma wrapper_try_tail (filename : string) (a b : list ascii) :
  chars filename = a ++ "_"%char :: b ->
  (forall pre, strptime_YmdHMS_pkl (pre ++ b) = None) ->
  wrapper_try filename = Raise ValueError.
Proof.
  intros Hc Hb. unfold wrapper_try. rewrite Hc.
  destruct (split_underscore_app a b) as (a' & pre & ->). now rewrite Hb.
Qed.

(** With the key "key_error" no file passes the [try] block. *)
Lemma wrapper_try_key_error (name : option string) (filename : string) :
  startswith filename (file_prefix name "key_error") = true ->
  wrapper_try filename = Raise ValueError.
Proof.
  intros Hs. apply startswith_inv in Hs as [rest ->].
  unfold file_prefix. destruct (truthy name).
  - apply (wrapper_try_tail _ (chars (name_str name)) (chars "key_error" ++ chars rest)).
    + now rewrite !chars_append, <- !app_assoc.
    + intros pre. apply strptime_pkl_rejects_e.
      apply in_or_app. right. apply in_or_app. left. simpl. tauto.
  - apply (wrapper_try_tail _ (chars "key") (chars "error" ++ chars rest)).
    + now rewrite chars_append.
    + intros pre. apply strptime_pkl_rejects_e.
      apply in_or_app. right. apply in_or_app. left. simpl. tauto.
Qed.

Lemma chars_length (s : string) : List.length (chars s) = String.length s.
Proof. unfold chars. induction s as [|c s IH]; simpl; [reflexivity | now rewrite IH]. Qed.

(** With a name and a key of 64 characters no file passes the [try] block:
    what follows the first underscore still holds the whole key. *)
Lemma wrapper_try_named (name : option string) (key filename : string) :
  truthy name = true ->
  String.length key = 64%nat ->
  startswith filename (file_prefix name key) = true ->
  wrapper_try filename = Raise ValueError.
Proof.
  intros Hn Hlen Hs. apply startswith_inv in Hs as [rest ->].
  unfold file_prefix. rewrite Hn.
  apply (wrapper_try_tail _ (chars (name_str name)) (chars key ++ chars rest)).
  - now rewrite !chars_append, <- !app_assoc.
  - intros pre. destruct (strptime_YmdHMS_pkl (pre ++ chars key ++ chars rest))
      as [t|] eqn:H; [|reflexivity].
    apply strptime_pkl_length in H. rewrite !length_app, chars_length, Hlen in H. lia.
Qed.

Section Wrapper.

Context {R : Runtime}.
Variables (name : option string) (time_limit : timedelta).
Variable func : list pyval -> list (pyval * pyval) -> outcome pyval.
Variables (args : list pyval) (kwargs : list (pyval * pyval)).
Variables (now : datetime) (d : directory).

(** When no listed file passes the [try] block the wrapper computes. *)
Lemma cache_this_computes (key : string) :
  key = match fingerprint (PTuple args) (PDict kwargs) with
        | Some key => key
        | None => "key_error"%string
        end ->
  (forall x, startswith x (file_prefix name key) = true ->
             wrapper_try x = Raise ValueError) ->
  let d' := remove_all (dropped (classify wrapper_try name (file_prefix name key)
                                          now time_limit) (os_listdir d)) d in
  cache_this name time_limit func args kwargs now d
  = match func args kwargs with
    | Raise e => (Raise e, d', 1%nat)
    | Return result =>
        match pickle_dumps result with
        | Some content =>
            (Return result,
             write_file (entry_name (file_prefix name key) (strftime_YmdHMS now))
                        content d', 1%nat)
        | None =>
            (Raise PicklingError,
             write_file (entry_name (file_prefix name key) (strftime_YmdHMS now))
                        [] d', 1%nat)
        end
    end.
Proof.
  intros Hkey Htry d'. unfold cache_this. rewrite <- Hkey.
  rewrite scan_all_harmless; [reflexivity|].
  intros x _. unfold classify.
  destruct (truthy name && negb (startswith x (name_str name))); [now left|].
  destruct (startswith x (file_prefix name key)) eqn:Hs; [|now left].
  rewrite (Htry x Hs). now right.
Qed.

End Wrapper.

(** C6. When the arguments cannot be pickled, [check] returns
    [(False, None)] at once and leaves the directory alone, and the wrapper
    of [cache_this] finds no cached value under the key "key_error", calls
    the wrapped function once and returns what it returns: no error comes
    from the failed fingerprint. *)
Theorem unserializable_key_is_a_miss {R : Runtime}
    (name : option string) (time_limit : timedelta) (now : datetime) (d : directory) :
  (forall args kwargs,
      fingerprint (as_tuple args) (as_dict kwargs) = None ->
      check args kwargs name time_limit now d = (Return (false, PNone), d)) /\
  (forall func args kwargs result content,
      fingerprint (PTuple args) (PDict kwargs) = None ->
      func args kwargs = Return result ->
      pickle_dumps result = Some content ->
      let run := cache_this name time_limit func args kwargs now d in
      fst (fst run) = Return result /\ snd run = 1%nat).
Proof.
  split.
  - intros args kwargs Hk. unfold check. now rewrite Hk.
  - intros func args kwargs result content Hk Hf Hd run. subst run.
    rewrite (cache_this_computes name time_limit func args kwargs now d "key_error").
    + rewrite Hf, Hd. split; reflexivity.
    + now rewrite Hk.
    + intros x. apply wrapper_try_key_error.
Qed.

Lemma unserializable_key_is_a_miss_witness :
  let d := [("key_error_20240115110000.pkl"%string, ["K"%byte; x09])] in
  let run := cache_this (R := sample_runtime) None (weeks 2) Sample.arity
               [PObject 0; PInt 2] [] Sample.noon d in
  fingerprint (R := sample_runtime) (PTuple [PObject 0; PInt 2]) (PDict []) = None /\
  check (R := sample_runtime) (PTuple [PObject 0; PInt 2]) PNone None (days 3)
        Sample.noon d = (Return (false, PNone), d) /\
  fst (fst run) = Return (PInt 2) /\ snd run = 1%nat.
Proof.
  intros d run.
  assert (Hk : fingerprint (R := sample_runtime) (PTuple [PObject 0; PInt 2]) (PDict [])
               = None) by reflexivity.
  split; [exact Hk|]. split.
  - apply (proj1 (unserializable_key_is_a_miss (R := sample_runtime) None (days 3)
                    Sample.noon d)).
    reflexivity.
  - apply (proj2 (unserializable_key_is_a_miss (R := sample_runtime) None (weeks 2)
                    Sample.noon d)
             Sample.arity [PObject 0; PInt 2] [] (PInt 2) ["K"%byte; x02]).
    + exact Hk.
    + reflexivity.
    + reflexivity.
Defined.

(** Under a name, and with fingerprints of 64 characters, the wrapper of
    [cache_this] never answers from the cache: every call invokes the
    wrapped function. The text after the first underscore of
    "name_key_timestamp.pkl" is "key_timestamp.pkl", which [strptime]
    rejects, so the entry is deleted as if it were corrupt. *)
Lemma cache_this_named_always_computes {R : Runtime}
    (name : option string) (time_limit : timedelta)
    (func : list pyval -> list (pyval * pyval) -> outcome pyval)
    (args : list pyval) (kwargs : list (pyval * pyval))
    (now : datetime) (d : directory) :
  truthy name = true ->
  (forall b, String.length (sha256_hexdigest b) = 64%nat) ->
  snd (cache_this name time_limit func args kwargs now d) = 1%nat.
Proof.
  intros Hn Hlen.
  rewrite (cache_this_computes name time_limit func args kwargs now d _ eq_refl).
  - destruct (func args kwargs) as [result|e]; [|reflexivity].
    now destruct (pickle_dumps result).
  - intros x. unfold fingerprint.
    destruct (pickle_dumps (PTuple [PTuple args; PDict kwargs])) as [b|].
    + now apply wrapper_try_named.
    + apply wrapper_try_key_error.
Qed.

(** C2. The module's own demonstration, through the decorator: [a + b]
    memoized under the name "m" and called twice with (1, 2), five seconds
    apart and far within the limit of two weeks. The second call deletes
    the entry of the first and invokes the function again: two invocations
    for two calls. *)
Theorem cache_this_named_second_call_recomputes :
  let first := cache_this (R := sample_runtime) (Some "m"%string) (weeks 2)
                 Sample.add [PInt 1; PInt 2] [] Sample.noon [] in
  let second := cache_this (R := sample_runtime) (Some "m"%string) (weeks 2)
                  Sample.add [PInt 1; PInt 2] [] Sample.after_noon (snd (fst first)) in
  first = (Return (PInt 3),
           [(("m_" ++ Sample.key12 ++ "_20240115120000.pkl")%string, ["K"%byte; x03])],
           1%nat) /\
  second = (Return (PInt 3),
            [(("m_" ++ Sample.key12 ++ "_20240115120005.pkl")%string, ["K"%byte; x03])],
            1%nat).
Proof.
  intros first second. split; reflexivity.
Qed.

(** Without a name the same two calls invoke the function once: the
    second call is answered from the entry of the first. *)
Lemma cache_this_unnamed_second_call_hits :
  let first := cache_this (R := sample_runtime) None (weeks 2)
                 Sample.add [PInt 1; PInt 2] [] Sample.noon [] in
  let second := cache_this (R := sample_runtime) None (weeks 2)
                  Sample.add [PInt 1; PInt 2] [] Sample.after_noon (snd (fst first)) in
  snd first = 1%nat /\
  second = (Return (PInt 3), [(Sample.file_12, ["K"%byte; x03])], 0%nat).
Proof.
  intros first second. split; reflexivity.
Qed.

Lemma sample_hexdigest_length (b : list byte) :
  String.length (sample_hexdigest b) = 64%nat.
Proof.
  unfold sample_hexdigest. rewrite <- chars_length, chars_of_list.
  rewrite length_firstn, length_app, repeat_length. lia.
Qed.

(** The sample runtime has fingerprints of 64 characters: under it a named
    cache never answers. *)
Lemma sample_named_cache_always_computes
    (func : list pyval -> list (pyval * pyval) -> outcome pyval)
    (args : list pyval) (kwargs : list (pyval * pyval))
    (now : datetime) (d : directory) :
  snd (cache_this (R := sample_runtime) (Some "m"%string) (weeks 2)
         func args kwargs now d) = 1%nat.
Proof.
  apply cache_this_named_always_computes; [reflexivity|].
  exact sample_hexdigest_length.
Qed.

(* ================================================================== *)
(** * Further properties of the code *)

(** ** More on the directory and the scan *)

Lemma listdir_remove_all (names : list string) (d : directory) (x : string) :
  In x (os_listdir (remove_all names d)) <-> In x (os_listdir d) /\ ~ In x names.
Proof.
  rewrite remove_all_spec. unfold os_listdir. split.
  - intros H. apply in_map_iff in H as (e & <- & He).
    apply filter_In in He as [He Hn]. split; [now apply in_map|].
    intros Hin. apply negb_true_iff in Hn.
    assert (Ht : existsb (String.eqb (fst e)) names = true); [|congruence].
    apply existsb_exists. exists (fst e). split; [exact Hin | apply String.eqb_refl].
  - intros [H Hn]. apply in_map_iff in H as (e & <- & He).
    apply in_map_iff. exists e. split; [reflexivity|].
    apply filter_In. split; [exact He|]. apply negb_true_iff.
    destruct (existsb (String.eqb (fst e)) names) eqn:Hex; [|reflexivity].
    apply existsb_exists in Hex as (y & Hy & Heq). apply String.eqb_eq in Heq.
    subst y. contradiction.
Qed.

Lemma read_file_remove_all (names : list string) (d : directory) (x : string) :
  read_file x (remove_all names d) = read_file x d \/
  read_file x (remove_all names d) = None.
Proof.
  destruct (in_dec string_dec x names) as [Hin|Hin].
  - right. now apply read_file_remove_all_same.
  - left. now apply read_file_remove_all_other.
Qed.

Lemma dropped_none (verdict_of : string -> verdict) (listing : list string) :
  (forall x, In x listing -> verdict_of x <> Drop) -> dropped verdict_of listing = [].
Proof.
  intros H. unfold dropped. induction listing as [|y listing IH]; [reflexivity|].
  simpl. destruct (verdict_of y) eqn:Hy; simpl;
    try (apply IH; intros x Hx; apply H; now right).
  exfalso. apply (H y); [now left | exact Hy].
Qed.

Section ScanMore.

Context {R : Runtime}.
Variable try_block : string -> outcome datetime.
Variable name : option string.
Variable prefix : string.
Variable now : datetime.
Variable time_limit : timedelta.

Local Abbreviation scan' := (scan try_block name prefix now time_limit).
Local Abbreviation verdict_of := (classify try_block name prefix now time_limit).

Lemma load_entry_some (filename : string) (d : directory) :
  load_entry filename d <> None.
Proof.
  unfold load_entry. destruct (read_file filename d) as [c|]; [|discriminate].
  destruct (pickle_loads c); discriminate.
Qed.

(** A scan that runs to the end of the listing has met harmless files
    only. *)
Lemma scan_none_harmless (listing : list string) :
  forall d, fst (scan' listing d) = None ->
            forall x, In x listing -> harmless (verdict_of x).
Proof.
  induction listing as [|y listing IH]; intros d Hnone x Hx; [contradiction|].
  rewrite scan_cons in Hnone. destruct (verdict_of y) eqn:Hy.
  - destruct Hx as [<-|Hx]; [now left | exact (IH d Hnone x Hx)].
  - destruct Hx as [<-|Hx]; [now right | exact (IH _ Hnone x Hx)].
  - simpl in Hnone. now apply load_entry_some in Hnone.
  - discriminate.
Qed.

(** A value returned by the scan was loaded from a live file, which is
    still there afterwards. *)
Lemma scan_return_sound (v : pyval) (listing : list string) :
  forall d, fst (scan' listing d) = Some (Return v) ->
            exists x c, In x listing /\ verdict_of x = Hit /\
                        read_file x d = Some c /\ pickle_loads c = Some v /\
                        read_file x (snd (scan' listing d)) = Some c.
Proof.
  induction listing as [|y listing IH]; intros d H; [discriminate|].
  rewrite scan_cons in *. destruct (verdict_of y) eqn:Hy.
  - destruct (IH d H) as (x & c & Hin & Hv & Hr & Hl & Hk).
    exists x, c. repeat split; auto; try (now right).
  - destruct (IH _ H) as (x & c & Hin & Hv & Hr & Hl & Hk).
    exists x, c. repeat split; auto; try (now right).
    destruct (String.eqb x y) eqn:Hxy.
    + apply String.eqb_eq in Hxy. subst x. congruence.
    + apply String.eqb_neq in Hxy. now rewrite read_file_remove_other in Hr.
  - simpl in *. unfold load_entry in H.
    destruct (read_file y d) as [c|] eqn:Hr; [|discriminate].
    destruct (pickle_loads c) as [v'|] eqn:Hl; [|discriminate].
    inversion H; subst v'. exists y, c. repeat split; auto; try (now left).
  - discriminate.
Qed.

(** When nothing in the listing is dropped the scan deletes nothing. *)
Lemma scan_no_drop (listing : list string) (d : directory) :
  (forall x, In x listing -> verdict_of x <> Drop) ->
  snd (scan' listing d) = d.
Proof.
  intros Hnd. destruct (scan_directory try_block name prefix now time_limit listing d)
    as (names & -> & Hnames).
  destruct names as [|x names]; [reflexivity|].
  destruct (Hnames x (or_introl eq_refl)) as [Hin Hd]. now apply Hnd in Hin.
Qed.

End ScanMore.

(** With the prefix [check] and [cache_this] use, a file is skipped exactly
    when its name does not begin with the prefix; the time plays no part. *)
Lemma classify_skip (try_block : string -> outcome datetime)
    (name : option string) (key : string) (now : datetime) (time_limit : timedelta)
    (x : string) :
  classify try_block name (file_prefix name key) now time_limit x = Skip <->
  startswith x (file_prefix name key) = false.
Proof.
  unfold classify. split.
  - destruct (startswith x (file_prefix name key)) eqn:Hs; [|reflexivity].
    rewrite (prefix_passes_name_filter name key x Hs).
    destruct (try_block x) as [ts|e].
    + destruct (datetime_sub now ts <=? time_limit); discriminate.
    + destruct e; discriminate.
  - intros ->. now destruct (truthy name && negb (startswith x (name_str name))).
Qed.

Lemma classify_hit (try_block : string -> outcome datetime)
    (name : option string) (prefix : string) (now : datetime) (time_limit : timedelta)
    (x : string) :
  classify try_block name prefix now time_limit x = Hit ->
  startswith x prefix = true /\
  exists ts, try_block x = Return ts /\ datetime_sub now ts <= time_limit.
Proof.
  unfold classify.
  destruct (truthy name && negb (startswith x (name_str name))); [discriminate|].
  destruct (startswith x prefix); [|discriminate].
  destruct (try_block x) as [ts|e]; [|destruct e; discriminate].
  destruct (datetime_sub now ts <=? time_limit) eqn:Hle; [|discriminate].
  intros _. split; [reflexivity|]. exists ts. split; [reflexivity|].
  now apply Z.leb_le.
Qed.

(** ** Lookups *)

(** X1. A lookup that misses has cleaned up: when the key can be
    fingerprinted and [check] returns [(False, None)], no file whose name
    begins with the file prefix is left in the directory, and a further
    lookup of the key, at any time and with any limit, misses again and
    deletes nothing. *)
Theorem check_miss_leaves_no_entry {R : Runtime}
    (args kwargs : pyval) (name : option string) (time_limit : timedelta)
    (now : datetime) (d : directory) (key : string) :
  fingerprint (as_tuple args) (as_dict kwargs) = Some key ->
  fst (check args kwargs name time_limit now d) = Return (false, PNone) ->
  let d' := snd (check args kwargs name time_limit now d) in
  (forall x, In x (os_listdir d') -> startswith x (file_prefix name key) = false) /\
  (forall now' time_limit',
      check args kwargs name time_limit' now' d' = (Return (false, PNone), d')).
Proof.
  intros Hkey Hmiss d'. subst d'.
  rewrite check_scan with (key := key) in * by exact Hkey.
  destruct (scan check_try name (file_prefix name key) now time_limit (os_listdir d) d)
    as [[[value|e]|] d1] eqn:Hs; try discriminate. clear Hmiss. simpl.
  assert (Hall : forall x, In x (os_listdir d) ->
                 harmless (classify check_try name (file_prefix name key) now time_limit x)).
  { apply (scan_none_harmless check_try name (file_prefix name key) now time_limit
             (os_listdir d) d). now rewrite Hs. }
  rewrite scan_all_harmless in Hs by exact Hall. injection Hs as Hd1.
  assert (Hclean : forall x, In x (os_listdir d1) ->
                             startswith x (file_prefix name key) = false).
  { intros x Hx. rewrite <- Hd1 in Hx. apply listdir_remove_all in Hx as [Hin Hnd].
    apply (classify_skip check_try name key now time_limit).
    destruct (Hall x Hin) as [Hv|Hv]; [exact Hv|].
    exfalso. apply Hnd. unfold dropped. apply filter_In. split; [exact Hin|].
    now rewrite Hv. }
  split; [exact Hclean|].
  intros now' time_limit'. rewrite check_scan with (key := key) by exact Hkey.
  assert (Hskip : forall x, In x (os_listdir d1) ->
            classify check_try name (file_prefix name key) now' time_limit' x = Skip).
  { intros x Hx. apply classify_skip. now apply Hclean. }
  rewrite scan_all_harmless by (intros x Hx; left; now apply Hskip).
  rewrite dropped_none; [reflexivity|].
  intros x Hx. rewrite (Hskip x Hx). discriminate.
Qed.

Lemma check_miss_leaves_no_entry_witness :
  let d := [("notes.txt"%string, []);
            ((Sample.key12 ++ "_20231301000000.pkl")%string, ["K"%byte; x01]);
            (Sample.file_11, ["K"%byte; x02])] in
  let after := check (R := sample_runtime) Sample.args12 PNone None (days 3)
                 Sample.three_days_on d in
  after = (Return (false, PNone), [("notes.txt"%string, [])]) /\
  (forall x, In x (os_listdir (snd after)) ->
             startswith x (file_prefix None Sample.key12) = false).
Proof.
  intros d after. split; [reflexivity|].
  apply (check_miss_leaves_no_entry (R := sample_runtime) Sample.args12 PNone None
           (days 3) Sample.three_days_on d Sample.key12).
  - reflexivity.
  - reflexivity.
Defined.

(** X2. A lookup never invents a value: when [check] returns [(True, v)],
    the directory held a file whose name begins with the file prefix and
    carries a timestamp within the limit, and whose content unpickles to
    [v]; that file is still there after the lookup. *)
Theorem check_hit_comes_from_a_live_entry {R : Runtime}
    (args kwargs : pyval) (name : option string) (time_limit : timedelta)
    (now : datetime) (d : directory) (v : pyval) :
  fst (check args kwargs name time_limit now d) = Return (true, v) ->
  exists key filename timestamp content,
    fingerprint (as_tuple args) (as_dict kwargs) = Some key /\
    startswith filename (file_prefix name key) = true /\
    check_try filename = Return timestamp /\
    datetime_sub now timestamp <= time_limit /\
    read_file filename d = Some content /\
    pickle_loads content = Some v /\
    read_file filename (snd (check args kwargs name time_limit now d)) = Some content.
Proof.
  intros Hhit.
  destruct (fingerprint (as_tuple args) (as_dict kwargs)) as [key|] eqn:Hkey;
    [|unfold check in Hhit; rewrite Hkey in Hhit; discriminate].
  rewrite check_scan with (key := key) in * by exact Hkey.
  pose proof (scan_return_sound check_try name (file_prefix name key) now time_limit v
                (os_listdir d) d) as Hsound.
  destruct (scan check_try name (file_prefix name key) now time_limit (os_listdir d) d)
    as [[[value|e]|] d1] eqn:Hs; try discriminate.
  simpl in Hhit. inversion Hhit; subst value.
  destruct (Hsound eq_refl) as (x & c & _ & Hv & Hr & Hl & Hk).
  apply classify_hit in Hv as (Hp & ts & Hts & Hage).
  exists key, x, ts, c. repeat split; assumption.
Qed.

Lemma check_hit_comes_from_a_live_entry_witness :
  let d := [(Sample.file_11, ["K"%byte; x01]); (Sample.file_12, ["K"%byte; x02])] in
  fst (check (R := sample_runtime) Sample.args12 PNone None (days 3)
         Sample.after_noon d) = Return (true, PInt 1) /\
  exists key filename timestamp content,
    fingerprint (R := sample_runtime) (as_tuple Sample.args12) (as_dict PNone)
    = Some key /\
    startswith filename (file_prefix None key) = true /\
    check_try filename = Return timestamp /\
    datetime_sub Sample.after_noon timestamp <= days 3 /\
    read_file filename d = Some content /\
    pickle_loads (Runtime := sample_runtime) content = Some (PInt 1) /\
    read_file filename
      (snd (check (R := sample_runtime) Sample.args12 PNone None (days 3)
              Sample.after_noon d)) = Some content.
Proof.
  intros d. split; [reflexivity|].
  apply (check_hit_comes_from_a_live_entry (R := sample_runtime) Sample.args12 PNone
           None (days 3) Sample.after_noon d (PInt 1)).
  reflexivity.
Defined.

(** X3. A lookup only ever deletes: after [check], whatever its outcome,
    every file of the directory has the content it had before or is gone, no
    file has appeared, and a file whose name does not begin with the file
    prefix is untouched. *)
Theorem check_only_deletes_prefixed_files {R : Runtime}
    (args kwargs : pyval) (name : option string) (time_limit : timedelta)
    (now : datetime) (d : directory) :
  let d' := snd (check args kwargs name time_limit now d) in
  (forall x, read_file x d' = read_file x d \/ read_file x d' = None) /\
  (forall x key,
      fingerprint (as_tuple args) (as_dict kwargs) = Some key ->
      startswith x (file_prefix name key) = false ->
      read_file x d' = read_file x d) /\
  (fingerprint (as_tuple args) (as_dict kwargs) = None -> d' = d).
Proof.
  intros d'. subst d'.
  destruct (fingerprint (as_tuple args) (as_dict kwargs)) as [key|] eqn:Hkey.
  - rewrite check_scan with (key := key) by exact Hkey.
    assert (Hsnd : snd (match scan check_try name (file_prefix name key) now time_limit
                                   (os_listdir d) d with
                        | (Some (Return value), d') => (Return (true, value), d')
                        | (Some (Raise e), d') => (Raise e, d')
                        | (None, d') => (Return (false, PNone), d')
                        end)
                   = snd (scan check_try name (file_prefix name key) now time_limit
                               (os_listdir d) d)).
    { now destruct (scan check_try name (file_prefix name key) now time_limit
                         (os_listdir d) d) as [[[value|e]|] d1]. }
    rewrite Hsnd. split; [|split].
    + intros x.
      destruct (scan_directory check_try name (file_prefix name key) now time_limit
                  (os_listdir d) d) as (names & -> & _).
      apply read_file_remove_all.
    + intros x key' Hk' Hx. inversion Hk'; subst key'.
      apply scan_keeps.
      rewrite (proj2 (classify_skip check_try name key now time_limit x) Hx).
      discriminate.
    + discriminate.
  - unfold check. rewrite Hkey. simpl. split; [|split].
    + intros x. now left.
    + intros x key' Hk'. discriminate.
    + reflexivity.
Qed.

Lemma check_only_deletes_prefixed_files_witness :
  let d := [("notes.txt"%string, ["N"%byte]); (Sample.file_11, ["K"%byte; x02])] in
  let d' := snd (check (R := sample_runtime) Sample.args12 PNone None (days 3)
                   Sample.three_days_on d) in
  startswith "notes.txt" (file_prefix None Sample.key12) = false /\
  read_file "notes.txt" d' = Some ["N"%byte].
Proof.
  intros d d'.
  assert (Hs : startswith "notes.txt" (file_prefix None Sample.key12) = false)
    by reflexivity.
  split; [exact Hs|].
  apply (proj1 (proj2 (check_only_deletes_prefixed_files (R := sample_runtime)
                         Sample.args12 PNone None (days 3) Sample.three_days_on d))
           "notes.txt"%string Sample.key12 eq_refl Hs).
Defined.

Lemma listdir_remove_all_filter (names : list string) (d : directory) :
  os_listdir (remove_all names d)
  = filter (fun x => negb (existsb (String.eqb x) names)) (os_listdir d).
Proof.
  rewrite remove_all_spec. unfold os_listdir.
  induction d as [|e d IH]; simpl; [reflexivity|].
  destruct (existsb (String.eqb (fst e)) names); simpl; now rewrite IH.
Qed.

Lemma kept_not_in (names : list string) (x : string) :
  negb (existsb (String.eqb x) names) = true <-> ~ In x names.
Proof.
  rewrite negb_true_iff. split.
  - intros H Hin.
    assert (Ht : existsb (String.eqb x) names = true); [|congruence].
    apply existsb_exists. exists x. split; [exact Hin | apply String.eqb_refl].
  - intros H. destruct (existsb (String.eqb x) names) eqn:Hex; [|reflexivity].
    apply existsb_exists in Hex as (y & Hy & Heq). apply String.eqb_eq in Heq.
    subst y. contradiction.
Qed.

(** X4. A hit is stable: once [check] has answered from an entry, any
    further lookup of the key at a time at which that entry is still live
    returns the same value and leaves the directory exactly as the first
    lookup left it. *)
Theorem check_hit_is_stable {R : Runtime}
    (args kwargs : pyval) (name : option string)
    (time_limit time_limit' : timedelta) (now now' : datetime)
    (d : directory) (key : string)
    (pre post : list string) (filename : string) (content : list byte) (v : pyval) :
  fingerprint (as_tuple args) (as_dict kwargs) = Some key ->
  os_listdir d = pre ++ filename :: post ->
  (forall x, In x pre ->
             harmless (classify check_try name (file_prefix name key) now time_limit x)) ->
  classify check_try name (file_prefix name key) now time_limit filename = Hit ->
  classify check_try name (file_prefix name key) now' time_limit' filename = Hit ->
  read_file filename d = Some content ->
  pickle_loads content = Some v ->
  let first := check args kwargs name time_limit now d in
  fst first = Return (true, v) /\
  check args kwargs name time_limit' now' (snd first) = (Return (true, v), snd first).
Proof.
  intros Hkey Hlist Hpre Hhit Hhit' Hread Hload first. subst first.
  rewrite (check_first_hit args kwargs name time_limit now d key Hkey
             pre post filename Hlist Hpre Hhit).
  unfold load_entry at 1. rewrite Hread, Hload. simpl. split; [reflexivity|].
  set (gone := dropped (classify check_try name (file_prefix name key) now time_limit) pre).
  set (keep := fun x => negb (existsb (String.eqb x) gone)).
  assert (Hnot : ~ In filename gone).
  { apply not_dropped. rewrite Hhit. discriminate. }
  assert (Hlist' : os_listdir (remove_all gone d)
                   = filter keep pre ++ filename :: filter keep post).
  { rewrite listdir_remove_all_filter, Hlist, filter_app. simpl.
    fold keep. unfold keep at 2. now rewrite (proj2 (kept_not_in gone filename) Hnot). }
  assert (Hskip : forall x, In x (filter keep pre) ->
            classify check_try name (file_prefix name key) now' time_limit' x = Skip).
  { intros x Hx. apply filter_In in Hx as [Hin Hk].
    apply classify_skip. apply (classify_skip check_try name key now time_limit).
    destruct (Hpre x Hin) as [Hv|Hv]; [exact Hv|].
    exfalso. apply (proj1 (kept_not_in gone x) Hk).
    unfold gone, dropped. apply filter_In. split; [exact Hin | now rewrite Hv]. }
  rewrite (check_first_hit args kwargs name time_limit' now' (remove_all gone d) key Hkey
             (filter keep pre) (filter keep post) filename Hlist').
  - rewrite dropped_none by (intros x Hx; rewrite (Hskip x Hx); discriminate).
    unfold load_entry. simpl remove_all.
    rewrite read_file_remove_all_other by exact Hnot. now rewrite Hread, Hload.
  - intros x Hx. left. now apply Hskip.
  - exact Hhit'.
Qed.

Lemma check_hit_is_stable_witness :
  let d := [((Sample.key12 ++ "_20240101000000.pkl")%string, ["K"%byte; x09]);
            (Sample.file_11, ["K"%byte; x01]);
            (Sample.file_12, ["K"%byte; x02])] in
  let first := check (R := sample_runtime) Sample.args12 PNone None (days 3)
                 Sample.after_noon d in
  first = (Return (true, PInt 1),
           [(Sample.file_11, ["K"%byte; x01]); (Sample.file_12, ["K"%byte; x02])]) /\
  check (R := sample_runtime) Sample.args12 PNone None (days 3) Sample.two_days_on
        (snd first) = (Return (true, PInt 1), snd first).
Proof.
  intros d first. split; [reflexivity|].
  apply (check_hit_is_stable (R := sample_runtime) Sample.args12 PNone None
           (days 3) (days 3) Sample.after_noon Sample.two_days_on d Sample.key12
           [(Sample.key12 ++ "_20240101000000.pkl")%string] [Sample.file_12]
           Sample.file_11 ["K"%byte; x01] (PInt 1)).
  - reflexivity.
  - reflexivity.
  - intros x [<-|[]]. right. reflexivity.
  - reflexivity.
  - reflexivity.
  - reflexivity.
  - reflexivity.
Defined.

(** ** The decorator without a name *)

Lemma split_underscore_exact (a b : list ascii) :
  existsb (Ascii.eqb "_") a = false ->
  split_underscore (a ++ "_"%char :: b) = Some (a, b).
Proof.
  induction a as [|c a IH]; intros Ha; cbn [app split_underscore existsb] in *.
  - now rewrite Ascii.eqb_refl.
  - apply orb_false_iff in Ha as [Hc Ha]. rewrite Ascii.eqb_sym in Hc.
    rewrite Hc. now rewrite (IH Ha).
Qed.

(** Without a name, and with a key free of underscores, the [try] block of
    [cache_this] reads back the time at which an entry was written. *)
Lemma wrapper_try_entry (name : option string) (key : string) (t : datetime) :
  truthy name = false ->
  has_underscore key = false ->
  valid_datetime t = true ->
  wrapper_try (entry_name (file_prefix name key) (strftime_YmdHMS t))
  = Return (to_seconds t).
Proof.
  intros Hn Hu Hv. unfold wrapper_try, entry_name, file_prefix. rewrite Hn.
  rewrite !chars_append. change (chars "_" ++ ?x) with ("_"%char :: x).
  rewrite (split_underscore_exact _ _ Hu).
  unfold strptime_YmdHMS_pkl.
  now rewrite (strptime_with_strftime t [re_dot_pkl] (chars ".pkl") [chars ".pkl"] Hv).
Qed.

Lemma wrapper_entry_verdict (name : option string) (key : string) (t now : datetime)
    (time_limit : timedelta) :
  truthy name = false ->
  has_underscore key = false ->
  valid_datetime t = true ->
  classify wrapper_try name (file_prefix name key) now time_limit
           (entry_name (file_prefix name key) (strftime_YmdHMS t))
  = if datetime_sub now (to_seconds t) <=? time_limit then Hit else Drop.
Proof.
  intros Hn Hu Hv. unfold classify.
  rewrite entry_passes_filters, entry_name_startswith_prefix.
  now rewrite wrapper_try_entry.
Qed.

Section Decorator.

Context {R : Runtime}.
Variables (name : option string) (time_limit : timedelta).
Variable func : list pyval -> list (pyval * pyval) -> outcome pyval.
Variables (args : list pyval) (kwargs : list (pyval * pyval)).
Variable key : string.
Hypothesis Hkey : fingerprint (PTuple args) (PDict kwargs) = Some key.

Local Abbreviation prefix := (file_prefix name key).

(** The wrapper in terms of its scan. *)
Lemma cache_this_scan (now : datetime) (d : directory) :
  cache_this name time_limit func args kwargs now d
  = match scan wrapper_try name prefix now time_limit (os_listdir d) d with
    | (Some r, d') => (r, d', O)
    | (None, d') =>
        match func args kwargs with
        | Raise e => (Raise e, d', 1%nat)
        | Return result =>
            match pickle_dumps result with
            | Some content =>
                (Return result,
                 write_file (entry_name prefix (strftime_YmdHMS now)) content d', 1%nat)
            | None =>
                (Raise PicklingError,
                 write_file (entry_name prefix (strftime_YmdHMS now)) [] d', 1%nat)
            end
        end
    end.
Proof. unfold cache_this. now rewrite Hkey. Qed.

(** A live entry, met among harmless files, answers the wrapper; the
    wrapped function is not invoked. *)
Lemma cache_this_answers (now : datetime) (d : directory)
    (filename : string) (content : list byte) (value : pyval) :
  In filename (os_listdir d) ->
  classify wrapper_try name prefix now time_limit filename = Hit ->
  (forall x, In x (os_listdir d) -> x <> filename ->
             harmless (classify wrapper_try name prefix now time_limit x)) ->
  read_file filename d = Some content ->
  pickle_loads content = Some value ->
  cache_this name time_limit func args kwargs now d
  = (Return value,
     snd (scan wrapper_try name prefix now time_limit (os_listdir d) d), O).
Proof.
  intros Hin Hhit Hothers Hread Hload. rewrite cache_this_scan.
  pose proof (scan_hit wrapper_try name prefix now time_limit filename content value
                (os_listdir d) d Hin Hhit Hothers Hread Hload) as Hfst.
  destruct (scan wrapper_try name prefix now time_limit (os_listdir d) d)
    as [[r|] d']; simpl in *; inversion Hfst; reflexivity.
Qed.

End Decorator.



(** X6. Without a name, an entry older than the limit is not used. When
    every other file the scan meets is harmless (so that no other entry
    answers), the wrapper deletes the expired entry, invokes the function
    and stores the new result under the current time. (The key must hold
    no underscore, as a hexadecimal digest does.) *)
Theorem cache_this_unnamed_expired_recomputes {R : Runtime}
    (name : option string) (time_limit : timedelta)
    (func : list pyval -> list (pyval * pyval) -> outcome pyval)
    (args : list pyval) (kwargs : list (pyval * pyval))
    (t now : datetime) (d : directory)
    (key : string) (result : pyval) (content : list byte) :
  truthy name = false ->
  fingerprint (PTuple args) (PDict kwargs) = Some key ->
  has_underscore key = false ->
  clock_ok t -> clock_ok now ->
  datetime_sub now t > time_limit ->
  let old := entry_name (file_prefix name key) (strftime_YmdHMS t) in
  let new := entry_name (file_prefix name key) (strftime_YmdHMS now) in
  (forall x, In x (os_listdir d) -> x <> old ->
             harmless (classify wrapper_try name (file_prefix name key) now time_limit x)) ->
  func args kwargs = Return result ->
  pickle_dumps result = Some content ->
  let run := cache_this name time_limit func args kwargs now d in
  fst (fst run) = Return result /\ snd run = 1%nat /\
  read_file new (snd (fst run)) = Some content /\
  (to_seconds t <> to_seconds now -> read_file old (snd (fst run)) = None).
Proof.
  intros Hn Hkey Hu [Hvt _] [Hvn _] Hage old new Hothers Hf Hdump run. subst run.
  assert (Hold : classify wrapper_try name (file_prefix name key) now time_limit old
                 = Drop).
  { unfold old. rewrite wrapper_entry_verdict by assumption.
    rewrite datetime_sub_to_seconds. apply valid_datetime_spec in Hvt.
    destruct (datetime_sub now t + microsecond t <=? time_limit) eqn:Hle; [|reflexivity].
    apply Z.leb_le in Hle. lia. }
  assert (Hall : forall x, In x (os_listdir d) ->
            harmless (classify wrapper_try name (file_prefix name key) now time_limit x)).
  { intros x Hx. destruct (String.eqb x old) eqn:Hxo.
    - apply String.eqb_eq in Hxo. subst x. now right.
    - apply String.eqb_neq in Hxo. now apply Hothers. }
  rewrite (cache_this_scan name time_limit func args kwargs key Hkey now d).
  rewrite scan_all_harmless by exact Hall. rewrite Hf, Hdump. simpl.
  fold new. repeat split.
  - apply read_file_write_same.
  - intros Hne. rewrite read_file_write_other.
    + destruct (in_dec string_dec old (os_listdir d)) as [Hin|Hin].
      * apply read_file_remove_all_same. unfold dropped. apply filter_In.
        split; [exact Hin | now rewrite Hold].
      * rewrite read_file_remove_all_other.
        -- now apply read_file_None.
        -- intros Hd. apply filter_In in Hd as [Hd _]. contradiction.
    + unfold old, new. intros Heq. apply entry_name_injective in Heq.
      apply Hne. now apply strftime_injective.
Qed.

Lemma cache_this_unnamed_expired_recomputes_witness :
  let d := [(Sample.file_12, ["K"%byte; x09])] in
  let run := cache_this (R := sample_runtime) None (days 3) Sample.add
               [PInt 1; PInt 2] [] Sample.three_days_on d in
  datetime_sub Sample.three_days_on Sample.noon > days 3 /\
  run = (Return (PInt 3),
         [((Sample.key12 ++ "_20240118120001.pkl")%string, ["K"%byte; x03])], 1%nat) /\
  read_file Sample.file_12 (snd (fst run)) = None.
Proof.
  intros d run.
  assert (Hage : datetime_sub Sample.three_days_on Sample.noon > days 3) by reflexivity.
  split; [exact Hage|]. split; [reflexivity|].
  apply (cache_this_unnamed_expired_recomputes (R := sample_runtime) None (days 3)
           Sample.add [PInt 1; PInt 2] [] Sample.noon Sample.three_days_on d
           Sample.key12 (PInt 3) ["K"%byte; x03]).
  - reflexivity.
  - reflexivity.
  - reflexivity.
  - split; [reflexivity | vm_compute; discriminate].
  - split; [reflexivity | vm_compute; discriminate].
  - exact Hage.
  - intros x [<-|[]] Hne. now contradiction Hne.
  - reflexivity.
  - reflexivity.
  - discriminate.
Defined.

(** ** The two interfaces share their entries *)


(** A live entry, met among harmless files, answers [check]. *)
Lemma check_answers {R : Runtime}
    (args kwargs : pyval) (name : option string) (time_limit : timedelta)
    (now : datetime) (d : directory) (key : string)
    (filename : string) (content : list byte) (value : pyval) :
  fingerprint (as_tuple args) (as_dict kwargs) = Some key ->
  In filename (os_listdir d) ->
  classify check_try name (file_prefix name key) now time_limit filename = Hit ->
  (forall x, In x (os_listdir d) -> x <> filename ->
             harmless (classify check_try name (file_prefix name key) now time_limit x)) ->
  read_file filename d = Some content ->
  pickle_loads content = Some value ->
  check args kwargs name time_limit now d
  = (Return (true, value),
     snd (scan check_try name (file_prefix name key) now time_limit (os_listdir d) d)).
Proof.
  intros Hkey Hin Hhit Hothers Hread Hload.
  rewrite check_scan with (key := key) by exact Hkey.
  pose proof (scan_hit check_try name (file_prefix name key) now time_limit
                filename content value (os_listdir d) d Hin Hhit Hothers Hread Hload)
    as Hfst.
  destruct (scan check_try name (file_prefix name key) now time_limit (os_listdir d) d)
    as [[[v|e]|] d']; simpl in *; inversion Hfst; reflexivity.
Qed.



(** X8. What [store] writes without a name, the decorator uses: after
    [store(v, args, kwargs)] of a value that pickle loads back, a call of
    the unnamed wrapper with those arguments, made while the entry is
    within the limit, returns [v] and does not invoke the function, when
    every other file the scan meets is harmless (so that no other entry
    answers first, and no older one is in the way). (The key must hold no
    underscore, as a hexadecimal digest does.) *)
Theorem cache_this_answers_from_store {R : Runtime}
    (name : option string) (time_limit : timedelta)
    (func : list pyval -> list (pyval * pyval) -> outcome pyval)
    (args : list pyval) (kwargs : list (pyval * pyval))
    (t now : datetime) (d : directory)
    (key : string) (v : pyval) (content : list byte) :
  truthy name = false ->
  fingerprint (PTuple args) (PDict kwargs) = Some key ->
  has_underscore key = false ->
  clock_ok t ->
  pickle_dumps v = Some content ->
  pickle_loads content = Some v ->
  datetime_sub now (to_seconds t) <= time_limit ->
  (forall x, In x (os_listdir d) ->
             x <> entry_name (file_prefix name key) (strftime_YmdHMS t) ->
             harmless (classify wrapper_try name (file_prefix name key) now time_limit x)) ->
  let run := cache_this name time_limit func args kwargs now
               (snd (store v (PTuple args) (PDict kwargs) name t d)) in
  fst (fst run) = Return v /\ snd run = 0%nat.
Proof.
  intros Hn Hkey Hu [Hvalid _] Hdump Hload Hage Hothers run. subst run.
  rewrite store_directory with (key := key) by exact Hkey. rewrite Hdump.
  set (new := entry_name (file_prefix name key) (strftime_YmdHMS t)) in *.
  rewrite (cache_this_answers name time_limit func args kwargs key Hkey now
             (write_file new content d) new content v).
  - split; reflexivity.
  - apply listdir_write_file. now left.
  - unfold new. rewrite wrapper_entry_verdict by assumption.
    apply Z.leb_le in Hage. now rewrite Hage.
  - intros x Hx Hne. apply Hothers; [|exact Hne].
    apply listdir_write_file in Hx. destruct Hx; [contradiction | assumption].
  - apply read_file_write_same.
  - exact Hload.
Qed.

Lemma cache_this_answers_from_store_witness :
  let run := cache_this (R := sample_runtime) None (weeks 2) Sample.add
               [PInt 1; PInt 2] [] Sample.after_noon
               (snd (store (R := sample_runtime) (PInt 9) (PTuple [PInt 1; PInt 2])
                       (PDict []) None Sample.noon [])) in
  fst (fst run) = Return (PInt 9) /\ snd run = 0%nat.
Proof.
  apply (cache_this_answers_from_store (R := sample_runtime) None (weeks 2) Sample.add
           [PInt 1; PInt 2] [] Sample.noon Sample.after_noon [] Sample.key12 (PInt 9)
           ["K"%byte; x09]).
  - reflexivity.
  - reflexivity.
  - reflexivity.
  - split; [reflexivity | vm_compute; discriminate].
  - reflexivity.
  - reflexivity.
  - vm_compute. discriminate.
  - intros x [].
Defined.

(** ** The demonstration: [check], compute, [store] *)

(** X9. The check-then-store pattern of the demonstration memoizes, under
    its name "my_function". On a directory where the first lookup meets
    harmless files only, the first call returns [a + b] and stores it; a
    second call made while that entry is within three days returns
    [a + b] from the cache, stores nothing and leaves the directory as it
    is. *)
Theorem function_with_cache_check_memoizes {R : Runtime}
    (a b : Z) (t_check t_store now now_store : datetime) (d : directory)
    (key : string) (content : list byte) :
  fingerprint (PTuple [PInt a; PInt b]) (PDict []) = Some key ->
  pickle_dumps (PInt (a + b)) = Some content ->
  pickle_loads content = Some (PInt (a + b)) ->
  clock_ok t_store ->
  (forall x, In x (os_listdir d) ->
             harmless (classify check_try (Some "my_function"%string)
                         (file_prefix (Some "my_function"%string) key)
                         t_check (days 3) x)) ->
  datetime_sub now (to_seconds t_store) <= days 3 ->
  let first := function_with_cache_check a b t_check t_store d in
  let second := function_with_cache_check a b now now_store (snd first) in
  fst first = Return (PInt (a + b)) /\
  read_file (entry_name (file_prefix (Some "my_function"%string) key)
                        (strftime_YmdHMS t_store)) (snd first) = Some content /\
  second = (Return (PInt (a + b)), snd first).
Proof.
  intros Hkey Hdump Hload [Hvalid _] Hall Hage first second. subst second first.
  set (name := Some "my_function"%string) in *.
  set (new := entry_name (file_prefix name key) (strftime_YmdHMS t_store)).
  assert (Hfirst : function_with_cache_check a b t_check t_store d
                   = (Return (PInt (a + b)),
                      write_file new content
                        (remove_all (dropped (classify check_try name (file_prefix name key)
                                                       t_check (days 3))
                                             (os_listdir d)) d))).
  { unfold function_with_cache_check. fold name.
    rewrite check_scan with (key := key) by exact Hkey.
    rewrite scan_all_harmless by exact Hall.
    unfold store, my_function.
    change (fingerprint (as_tuple (PTuple [PInt a; PInt b])) (as_dict PNone))
      with (fingerprint (PTuple [PInt a; PInt b]) (PDict [])).
    now rewrite Hkey, Hdump. }
  rewrite Hfirst. simpl fst. simpl snd.
  set (d0 := remove_all _ d).
  split; [reflexivity|]. split; [apply read_file_write_same|].
  assert (Hnew : classify check_try name (file_prefix name key) now (days 3) new = Hit).
  { unfold new. rewrite (entry_verdict name key t_store now (days 3) Hvalid).
    apply Z.leb_le in Hage. now rewrite Hage. }
  assert (Hskip : forall x, In x (os_listdir (write_file new content d0)) -> x <> new ->
            classify check_try name (file_prefix name key) now (days 3) x = Skip).
  { intros x Hx Hne. apply listdir_write_file in Hx. destruct Hx as [->|Hx];
      [contradiction|].
    apply listdir_remove_all in Hx as [Hin Hnd].
    apply classify_skip. apply (classify_skip check_try name key t_check (days 3)).
    destruct (Hall x Hin) as [Hv|Hv]; [exact Hv|].
    exfalso. apply Hnd. unfold dropped. apply filter_In. split; [exact Hin|].
    now rewrite Hv. }
  unfold function_with_cache_check. fold name.
  rewrite (check_answers (PTuple [PInt a; PInt b]) PNone name (days 3) now
             (write_file new content d0) key new content (PInt (a + b))).
  - rewrite scan_no_drop; [reflexivity|].
    intros x Hx. destruct (String.eqb x new) eqn:Hxn.
    + apply String.eqb_eq in Hxn. subst x. rewrite Hnew. discriminate.
    + apply String.eqb_neq in Hxn. rewrite (Hskip x Hx Hxn). discriminate.
  - exact Hkey.
  - apply listdir_write_file. now left.
  - exact Hnew.
  - intros x Hx Hne. left. now apply Hskip.
  - apply read_file_write_same.
  - exact Hload.
Qed.

Lemma function_with_cache_check_memoizes_witness :
  let first := function_with_cache_check (R := sample_runtime) 1 2
                 Sample.at_11 Sample.noon [] in
  let second := function_with_cache_check (R := sample_runtime) 1 2
                  Sample.after_noon Sample.two_days_on (snd first) in
  fst first = Return (PInt 3) /\
  second = (Return (PInt 3), snd first).
Proof.
  intros first second.
  destruct (function_with_cache_check_memoizes (R := sample_runtime) 1 2
              Sample.at_11 Sample.noon Sample.after_noon Sample.two_days_on []
              Sample.key12 ["K"%byte; x03]) as (H1 & _ & H2).
  - reflexivity.
  - reflexivity.
  - reflexivity.
  - split; [reflexivity | vm_compute; discriminate].
  - intros x [].
  - vm_compute. discriminate.
  - split; [exact H1 | exact H2].
Defined.

(** ** Different keys *)

Lemma list_startswith_same_length (p s r : list ascii) :
  List.length p = List.length s ->
  list_startswith p (s ++ r) = true -> s = p.
Proof.
  revert s. induction p as [|a p IH]; intros [|b s] Hlen H; simpl in *;
    try reflexivity; try discriminate.
  apply andb_true_iff in H as [Hab H]. apply Ascii.eqb_eq in Hab. subst b.
  f_equal. apply IH; [lia | exact H].
Qed.

Lemma list_startswith_common (p a b : list ascii) :
  list_startswith (p ++ a) (p ++ b) = list_startswith a b.
Proof.
  induction p as [|c p IH]; [reflexivity|].
  cbn [app list_startswith]. now rewrite Ascii.eqb_refl, IH.
Qed.

(** Entries of two different keys of the same length never carry each
    other's prefix. *)
Lemma distinct_keys_disjoint (name : option string) (key1 key2 stamp : string) :
  String.length key1 = String.length key2 ->
  key1 <> key2 ->
  startswith (entry_name (file_prefix name key1) stamp) (file_prefix name key2) = false.
Proof.
  intros Hlen Hne. destruct (startswith _ _) eqn:Hs; [|reflexivity].
  exfalso. apply Hne. apply chars_inj.
  unfold startswith, entry_name, file_prefix in Hs. destruct (truthy name).
  - rewrite !chars_append, <- !app_assoc, !list_startswith_common in Hs.
    apply list_startswith_same_length in Hs; [exact Hs|].
    now rewrite !chars_length.
  - rewrite !chars_append in Hs.
    apply list_startswith_same_length in Hs; [exact Hs|].
    now rewrite !chars_length.
Qed.

(** X10. Different inputs have different entries: a lookup for one key
    neither deletes nor reads an entry written for a different key of the
    same length (as all hexadecimal digests are). With the entry removed
    beforehand the lookup has the same outcome and makes the same
    deletions. *)
Theorem check_ignores_entries_of_other_keys {R : Runtime}
    (args kwargs : pyval) (name : option string) (time_limit : timedelta)
    (now : datetime) (d : directory) (key other_key stamp : string) :
  fingerprint (as_tuple args) (as_dict kwargs) = Some key ->
  String.length other_key = String.length key ->
  other_key <> key ->
  let other := entry_name (file_prefix name other_key) stamp in
  let after := check args kwargs name time_limit now d in
  read_file other (snd after) = read_file other d /\
  check args kwargs name time_limit now (os_remove other d)
  = (fst after, os_remove other (snd after)).
Proof.
  intros Hkey Hlen Hne other after. subst after.
  assert (Hskip : classify check_try name (file_prefix name key) now time_limit other
                  = Skip).
  { apply classify_skip. now apply distinct_keys_disjoint. }
  rewrite !check_scan with (key := key) by exact Hkey. split.
  - pose proof (scan_keeps check_try name (file_prefix name key) now time_limit
                  (os_listdir d) d other) as Hkeep.
    destruct (scan check_try name (file_prefix name key) now time_limit (os_listdir d) d)
      as [[[value|e]|] d'] eqn:Hs; simpl in *; apply Hkeep; rewrite Hskip; discriminate.
  - rewrite listdir_remove.
    rewrite (scan_skip_unread check_try name (file_prefix name key) now time_limit
               other (os_listdir d) Hskip d).
    destruct (scan check_try name (file_prefix name key) now time_limit (os_listdir d) d)
      as [[[value|e]|] d'] eqn:Hs; reflexivity.
Qed.

Lemma check_ignores_entries_of_other_keys_witness :
  let other_key :=
    "28284b034b02297b7d2900000000000000000000000000000000000000000000"%string in
  let other := (other_key ++ "_20240115120000.pkl")%string in
  let d := [(other, ["K"%byte; x05])] in
  fingerprint (R := sample_runtime) (PTuple [PInt 3; PInt 2]) (PDict [])
  = Some other_key /\
  check (R := sample_runtime) Sample.args12 PNone None (days 3) Sample.after_noon d
  = (Return (false, PNone), d) /\
  read_file other
    (snd (check (R := sample_runtime) Sample.args12 PNone None (days 3)
            Sample.after_noon d)) = read_file other d.
Proof.
  intros other_key other d. split; [reflexivity|]. split; [reflexivity|].
  apply (check_ignores_entries_of_other_keys (R := sample_runtime) Sample.args12 PNone
           None (days 3) Sample.after_noon d Sample.key12 other_key
           "20240115120000"%string).
  - reflexivity.
  - reflexivity.
  - discriminate.
Defined.

(** ** The decorator under a name, and failures *)

(** X11. Under a name (and with fingerprints of 64 characters) every call
    of the wrapper clears the key: it deletes each file whose name begins
    with the file prefix, whoever wrote it and however recent, and when
    the function returns a picklable result the entry written by this call
    is the only such file left. *)
Theorem cache_this_named_keeps_only_its_entry {R : Runtime}
    (name : option string) (time_limit : timedelta)
    (func : list pyval -> list (pyval * pyval) -> outcome pyval)
    (args : list pyval) (kwargs : list (pyval * pyval))
    (now : datetime) (d : directory)
    (key : string) (result : pyval) (content : list byte) :
  truthy name = true ->
  fingerprint (PTuple args) (PDict kwargs) = Some key ->
  String.length key = 64%nat ->
  func args kwargs = Return result ->
  pickle_dumps result = Some content ->
  let run := cache_this name time_limit func args kwargs now d in
  let new := entry_name (file_prefix name key) (strftime_YmdHMS now) in
  fst (fst run) = Return result /\
  read_file new (snd (fst run)) = Some content /\
  (forall x, In x (os_listdir (snd (fst run))) ->
             startswith x (file_prefix name key) = true -> x = new).
Proof.
  intros Hn Hkey Hlen Hf Hdump run new. subst run.
  assert (Htry : forall x, startswith x (file_prefix name key) = true ->
                           wrapper_try x = Raise ValueError).
  { intros x. now apply wrapper_try_named. }
  rewrite (cache_this_computes name time_limit func args kwargs now d key).
  - rewrite Hf, Hdump. simpl. fold new. split; [reflexivity|].
    split; [apply read_file_write_same|].
    intros x Hx Hs. apply listdir_write_file in Hx. destruct Hx as [Hx|Hx]; [exact Hx|].
    exfalso. apply listdir_remove_all in Hx as [Hin Hnd]. apply Hnd.
    unfold dropped. apply filter_In. split; [exact Hin|].
    unfold classify. rewrite (prefix_passes_name_filter name key x Hs), Hs.
    now rewrite (Htry x Hs).
  - now rewrite Hkey.
  - exact Htry.
Qed.

Lemma cache_this_named_keeps_only_its_entry_witness :
  let stored := snd (store (R := sample_runtime) (PInt 9) Sample.args12 PNone
                       (Some "m"%string) Sample.noon []) in
  let run := cache_this (R := sample_runtime) (Some "m"%string) (weeks 2) Sample.add
               [PInt 1; PInt 2] [] Sample.after_noon stored in
  stored = [(("m_" ++ Sample.file_12)%string, ["K"%byte; x09])] /\
  fst (fst run) = Return (PInt 3) /\
  read_file ("m_" ++ Sample.key12 ++ "_20240115120005.pkl") (snd (fst run))
  = Some ["K"%byte; x03] /\
  (forall x, In x (os_listdir (snd (fst run))) ->
             startswith x (file_prefix (Some "m"%string) Sample.key12) = true ->
             x = ("m_" ++ Sample.key12 ++ "_20240115120005.pkl")%string).
Proof.
  intros stored run. split; [reflexivity|].
  apply (cache_this_named_keeps_only_its_entry (R := sample_runtime) (Some "m"%string)
           (weeks 2) Sample.add [PInt 1; PInt 2] [] Sample.after_noon stored
           Sample.key12 (PInt 3) ["K"%byte; x03]).
  - reflexivity.
  - reflexivity.
  - reflexivity.
  - reflexivity.
  - reflexivity.
Defined.

(** X12. A failed computation is never cached: when the wrapped function
    raises, a call of the wrapper that invoked it raises the same
    exception, and the call adds or changes no file (it may have deleted
    stale ones on its way). *)
Theorem cache_this_failure_is_not_cached {R : Runtime}
    (name : option string) (time_limit : timedelta)
    (func : list pyval -> list (pyval * pyval) -> outcome pyval)
    (args : list pyval) (kwargs : list (pyval * pyval))
    (now : datetime) (d : directory) (e : exn) :
  func args kwargs = Raise e ->
  let run := cache_this name time_limit func args kwargs now d in
  (snd run = 1%nat -> fst (fst run) = Raise e) /\
  (forall x, read_file x (snd (fst run)) = read_file x d \/
             read_file x (snd (fst run)) = None).
Proof.
  intros Hf run. subst run. unfold cache_this. rewrite Hf.
  set (key := match fingerprint (PTuple args) (PDict kwargs) with
              | Some key => key
              | None => "key_error"%string
              end).
  destruct (scan_directory wrapper_try name (file_prefix name key) now time_limit
              (os_listdir d) d) as (names & Hd & _).
  destruct (scan wrapper_try name (file_prefix name key) now time_limit (os_listdir d) d)
    as [[r|] d'] eqn:Hs; simpl in *; subst d'.
  - split; [discriminate|]. intros x. apply read_file_remove_all.
  - split; [reflexivity|]. intros x. apply read_file_remove_all.
Qed.

Lemma cache_this_failure_is_not_cached_witness :
  let d := [(Sample.file_11, ["K"%byte; x09])] in
  let run := cache_this (R := sample_runtime) None (days 3) Sample.add
               [PInt 1] [] Sample.three_days_on d in
  Sample.add [PInt 1] [] = Raise (UserError 0) /\
  run = (Raise (UserError 0), d, 1%nat) /\
  (forall x, read_file x (snd (fst run)) = read_file x d \/
             read_file x (snd (fst run)) = None).
Proof.
  intros d run. split; [reflexivity|]. split; [reflexivity|].
  apply (cache_this_failure_is_not_cached (R := sample_runtime) None (days 3)
           Sample.add [PInt 1] [] Sample.three_days_on d (UserError 0)).
  reflexivity.
Defined.

(** ** Time stamps and names *)

(** X13. The name of an entry written at a time [t] of a four-digit year
    carries that time in whole seconds, and [check] reads it back as such:
    the age it measures is the true age rounded up by the fraction of the
    second at which the entry was written, so the entry is live exactly
    while the time since the start of that second does not exceed the
    limit. *)
Theorem entry_age_counts_from_the_whole_second
    (name : option string) (key : string) (t now : datetime) (time_limit : timedelta) :
  clock_ok t ->
  let filename := entry_name (file_prefix name key) (strftime_YmdHMS t) in
  check_try filename = Return (to_seconds t) /\
  datetime_sub now t <= datetime_sub now (to_seconds t) < datetime_sub now t + 1000000 /\
  classify check_try name (file_prefix name key) now time_limit filename
  = (if datetime_sub now t + microsecond t <=? time_limit then Hit else Drop).
Proof.
  intros [Hv _] filename. subst filename.
  rewrite (check_try_entry_name (file_prefix name key) t Hv).
  rewrite (entry_verdict name key t now time_limit Hv), datetime_sub_to_seconds.
  apply valid_datetime_spec in Hv. repeat split; lia.
Qed.

Lemma entry_age_counts_from_the_whole_second_witness :
  let now := mkdatetime 2024 1 18 12 0 0 500000 in
  clock_ok Sample.noon_later /\
  check_try Sample.file_12 = Return (to_seconds Sample.noon_later) /\
  datetime_sub now Sample.noon_later <= days 3 /\
  classify check_try None (file_prefix None Sample.key12) now (days 3)
           Sample.file_12 = Drop.
Proof.
  intros now.
  assert (Hclock : clock_ok Sample.noon_later)
    by (split; [reflexivity | vm_compute; discriminate]).
  destruct (entry_age_counts_from_the_whole_second None Sample.key12 Sample.noon_later
              now (days 3) Hclock) as (H1 & _ & H3).
  split; [exact Hclock|].
  split; [exact H1|]. split; [vm_compute; discriminate | exact H3].
Defined.

Lemma scan_falsy_name {R : Runtime} (try_block : string -> outcome datetime)
    (n1 n2 : option string) (prefix : string) (now : datetime)
    (time_limit : timedelta) (listing : list string) :
  truthy n1 = false -> truthy n2 = false ->
  forall d, scan try_block n1 prefix now time_limit listing d
            = scan try_block n2 prefix now time_limit listing d.
Proof.
  intros H1 H2. induction listing as [|x listing IH]; intros d; [reflexivity|].
  cbn [scan]. rewrite H1, H2. cbn [andb].
  destruct (startswith x prefix); [|apply IH].
  destruct (try_block x) as [ts|e].
  - destruct (datetime_sub now ts <=? time_limit); [reflexivity | apply IH].
  - destruct e; try reflexivity; apply IH.
Qed.

(** X14. An empty name is no name: with [name=""] the three operations
    behave exactly as with [name=None], file for file, so the unnamed cache
    and the cache named "" share their entries. *)
Theorem empty_name_is_no_name {R : Runtime}
    (time_limit : timedelta) (now : datetime) (d : directory) :
  (forall args kwargs,
      check args kwargs (Some ""%string) time_limit now d
      = check args kwargs None time_limit now d) /\
  (forall result args kwargs,
      store result args kwargs (Some ""%string) now d
      = store result args kwargs None now d) /\
  (forall func args kwargs,
      cache_this (Some ""%string) time_limit func args kwargs now d
      = cache_this None time_limit func args kwargs now d).
Proof.
  split; [|split].
  - intros args kwargs. unfold check.
    destruct (fingerprint (as_tuple args) (as_dict kwargs)) as [key|]; [|reflexivity].
    change (file_prefix (Some ""%string) key) with (file_prefix None key).
    now rewrite (scan_falsy_name check_try (Some ""%string) None).
  - reflexivity.
  - intros func args kwargs. unfold cache_this.
    set (key := match fingerprint (PTuple args) (PDict kwargs) with
                | Some key => key
                | None => "key_error"%string
                end).
    change (file_prefix (Some ""%string) key) with (file_prefix None key).
    now rewrite (scan_falsy_name wrapper_try (Some ""%string) None).
Qed.
